(** * OpenRadar: the DCA1000 data loader ([mmwave/dataloader/adc.py])

    A shallow embedding of the DCA1000 driver: the stream constants, the
    command builder of [_send_command], the packet decoder of
    [_read_data_packet], the two frame readers [read] and [read_frames],
    and the sample reorganiser [organize_frames].

    Python integers are [Z]; a [bytes] object is a [list byte]; a
    one-dimensional [numpy] array of [uint16] is a [list Z]; a UDP socket
    with a finite timeout is the list of datagrams still to be delivered,
    and an exhausted list raises [socket.timeout].  Python exceptions are
    the [Raise] branch of [result]. *)

From Stdlib Require Import Ascii String QArith ZArith Bool List Lia Permutation.
From Stdlib Require Import Strings.Byte.
Import ListNotations.

#[local] Open Scope Z_scope.

(** ** Exceptions and results *)

Inductive exn : Type :=
| SocketTimeout   (* socket.timeout, raised by recvfrom *)
| StructError     (* struct.error, raised by struct.unpack *)
| ValueError      (* numpy: bad buffer size, shape mismatch, sequence into element *)
| TypeError       (* a float used as a slice index *)
| IndexError      (* integer index out of bounds *)
| BinasciiError.  (* codecs.decode(..., 'hex') on malformed text *)

Inductive result (A : Type) : Type :=
| Ok (a : A)
| Raise (e : exn).

Arguments Ok {A} a.
Arguments Raise {A} e.

Definition bind {A B} (r : result A) (k : A -> result B) : result B :=
  match r with
  | Ok a => k a
  | Raise e => Raise e
  end.

Notation "x <- r ;; k" := (bind r (fun x => k))
  (at level 61, r at next level, right associativity).
Notation "' p <- r ;; k" := (bind r (fun x => let p := x in k))
  (at level 61, p pattern, r at next level, right associativity).

Definition len {A} (l : list A) : Z := Z.of_nat (length l).

(** ** Module constants (lines 43-63) *)

Record adc_params : Type := {
  chirps : Z;
  rx : Z;
  tx : Z;
  samples : Z;
  IQ : Z;
  bytes : Z
}.

Definition ADC_PARAMS : adc_params :=
  {| chirps := 128; rx := 4; tx := 1; samples := 256; IQ := 1; bytes := 4 |}.

Definition MAX_PACKET_SIZE : Z := 4096.
Definition BYTES_IN_PACKET : Z := 1456.

Definition bytes_in_frame (p : adc_params) : Z :=
  chirps p * rx p * tx p * IQ p * samples p * bytes p.

(** Python's [//] is floor division, which is [Z.div] for the positive
    divisor [BYTES_IN_PACKET]. *)
Definition bytes_in_frame_clipped (p : adc_params) : Z :=
  (bytes_in_frame p / BYTES_IN_PACKET) * BYTES_IN_PACKET.

Definition packets_in_frame_clipped (p : adc_params) : Z :=
  bytes_in_frame p / BYTES_IN_PACKET.

Definition BYTES_IN_FRAME : Z := bytes_in_frame ADC_PARAMS.
Definition BYTES_IN_FRAME_CLIPPED : Z := bytes_in_frame_clipped ADC_PARAMS.
(** [PACKETS_IN_FRAME] is a true division; it is kept as an exact
    rational (the float is its rounding, 360.0879...). *)
Definition PACKETS_IN_FRAME : Q := (inject_Z BYTES_IN_FRAME / inject_Z BYTES_IN_PACKET)%Q.
Definition PACKETS_IN_FRAME_CLIPPED : Z := packets_in_frame_clipped ADC_PARAMS.
Definition UINT16_IN_PACKET : Z := BYTES_IN_PACKET / 2.
Definition UINT16_IN_FRAME : Z := BYTES_IN_FRAME / 2.

(** ** Bytes *)

Definition Z_of_byte (b : byte) : Z := Z.of_N (Byte.to_N b).

Definition byte_of_Z (z : Z) : byte :=
  match Byte.of_N (Z.to_N (z mod 256)) with
  | Some b => b
  | None => x00
  end.

(** Little-endian and big-endian readings of a byte string as an
    unsigned integer ([struct] formats [<] and [>]). *)
Fixpoint le_uint (bs : list byte) : Z :=
  match bs with
  | [] => 0
  | b :: bs' => Z_of_byte b + 256 * le_uint bs'
  end.

Definition be_uint (bs : list byte) : Z :=
  fold_left (fun acc b => acc * 256 + Z_of_byte b) bs 0.

(** Python's [data[i:j]] for [0 <= i <= j]: out-of-range bounds are
    clamped, never an error. *)
Definition bslice {A} (data : list A) (i j : nat) : list A :=
  firstn (j - i) (skipn i data).

(** [struct.unpack('<1l', b)]: exactly four bytes, two's complement. *)
Definition unpack_int32_le (b : list byte) : result Z :=
  if (length b =? 4)%nat then
    let u := le_uint b in
    Ok (if u <? 2 ^ 31 then u else u - 2 ^ 32)
  else Raise StructError.

(** [struct.unpack('>Q', b)]: exactly eight bytes, unsigned. *)
Definition unpack_uint64_be (b : list byte) : result Z :=
  if (length b =? 8)%nat then Ok (be_uint b) else Raise StructError.

(** [np.frombuffer(b, dtype=np.uint16)]: the length must be a multiple of
    the item size; words are read in the host order (little-endian). *)
Fixpoint frombuffer_uint16 (b : list byte) : result (list Z) :=
  match b with
  | [] => Ok []
  | [_] => Raise ValueError
  | b0 :: b1 :: b' =>
      ws <- frombuffer_uint16 b' ;;
      Ok ((Z_of_byte b0 + 256 * Z_of_byte b1) :: ws)
  end.

(** ** Packets and the decoder of [_read_data_packet] (lines 280-291) *)

Record packet : Type := {
  packet_num : Z;
  byte_count : Z;
  packet_data : list Z
}.

Definition datagram : Type := list byte.

(** Lines 288-291, on the bytes [data] that [recvfrom] returned. *)
Definition decode (data : datagram) : result packet :=
  packet_num <- unpack_int32_le (bslice data 0 4) ;;
  byte_count <- unpack_uint64_be ([x00; x00] ++ rev (bslice data 4 10)) ;;
  packet_data <- frombuffer_uint16 (skipn 10 data) ;;
  Ok {| packet_num := packet_num; byte_count := byte_count; packet_data := packet_data |}.

(** The first [n] items of a list, [n] a Python integer. *)
Fixpoint take {A} (n : Z) (l : list A) : list A :=
  match l with
  | [] => []
  | x :: l' => if 0 <? n then x :: take (n - 1) l' else []
  end.

(** [recvfrom(MAX_PACKET_SIZE)] keeps at most [MAX_PACKET_SIZE] bytes of
    the datagram. *)
Definition recvfrom (d : datagram) : datagram := take MAX_PACKET_SIZE d.

(** The data socket: the datagrams not yet delivered.  With the timeout
    that both readers set, an empty queue raises [socket.timeout]. *)
Definition socket : Type := list datagram.

Definition _read_data_packet (sock : socket) : result (packet * socket) :=
  match sock with
  | [] => Raise SocketTimeout
  | d :: rest => p <- decode (recvfrom d) ;; Ok (p, rest)
  end.

(** Modelled from the spec: the sender's side of the data-packet wire
    format, which the repository does not contain (the board writes the
    packets).  SEQ (4 bytes, little-endian, signed), BYTECOUNT (6 bytes,
    little-endian, unsigned), then the samples as little-endian 16-bit
    words.  Synthetic streams are built with it. *)
Fixpoint le_bytes (n : nat) (z : Z) : list byte :=
  match n with
  | O => []
  | S n' => byte_of_Z z :: le_bytes n' (z / 256)
  end.

(** Modelled from the spec: the 10-byte header, [SEQ || BYTECOUNT]. *)
Definition encode_header (s b : Z) : datagram :=
  le_bytes 4 s ++ le_bytes 6 b.

(** Modelled from the spec: header, then the sample words. *)
Definition encode_packet (p : packet) : datagram :=
  encode_header (packet_num p) (byte_count p)
  ++ flat_map (le_bytes 2) (packet_data p).

(** ** One-dimensional [numpy] arrays of [uint16] *)

(** [np.zeros(n, dtype=np.uint16)]; a negative size is refused. *)
Definition np_zeros (n : Z) : result (list Z) :=
  if n <? 0 then Raise ValueError else Ok (repeat 0 (Z.to_nat n)).

(** A slice bound against an array of [n] items: a negative bound counts
    from the end, and the result is clamped to [0..n]. *)
Definition clamp_index (n i : Z) : Z :=
  if i <? 0 then Z.max (i + n) 0 else Z.min i n.

(** Broadcasting a one-dimensional value to [m] items: the same length,
    or a single item repeated. *)
Definition broadcast_to (v : list Z) (m : Z) : result (list Z) :=
  if len v =? m then Ok v
  else if len v =? 1 then Ok (repeat (hd 0 v) (Z.to_nat m))
  else Raise ValueError.

(** [a[start:stop] = v] *)
Definition set_slice (a : list Z) (start stop : Z) (v : list Z) : result (list Z) :=
  let n := len a in
  let lo := clamp_index n start in
  let hi := clamp_index n stop in
  let m := Z.max 0 (hi - lo) in
  v' <- broadcast_to v m ;;
  Ok (firstn (Z.to_nat lo) a ++ v' ++ skipn (Z.to_nat (lo + m)) a).

(** [a[i] = v] with an array [v] on the right: the index is checked, and
    only an array of one item converts to a scalar. *)
Definition set_item (a : list Z) (i : Z) (v : list Z) : result (list Z) :=
  let n := len a in
  if (i <? - n) || (n <=? i) then Raise IndexError
  else if len v =? 1 then
    let j := if i <? 0 then i + n else i in
    Ok (firstn (Z.to_nat j) a ++ hd 0 v :: skipn (Z.to_nat (j + 1)) a)
  else Raise ValueError.

(** Python numbers that reach a slice: [/] is true division and always
    gives a float, here an exact rational. *)
Inductive pynum : Type :=
| PyInt (z : Z)
| PyFloat (q : Q).

Definition true_div (a b : Z) : pynum := PyFloat (inject_Z a / inject_Z b)%Q.

(** A slice bound must be an integer: a float raises [TypeError]. *)
Definition slice_index (i : pynum) : result Z :=
  match i with
  | PyInt z => Ok z
  | PyFloat _ => Raise TypeError
  end.

(** [a[start:stop]] and [a[start:]] *)
Definition get_slice (a : list Z) (start stop : pynum) : result (list Z) :=
  start <- slice_index start ;;
  stop <- slice_index stop ;;
  let lo := clamp_index (len a) start in
  let hi := clamp_index (len a) stop in
  Ok (firstn (Z.to_nat (hi - lo)) (skipn (Z.to_nat lo) a)).

Definition get_slice_from (a : list Z) (start : pynum) : result (list Z) :=
  start <- slice_index start ;;
  Ok (skipn (Z.to_nat (clamp_index (len a) start)) a).

(** [a + b] on arrays is the element-wise sum, with broadcasting, modulo
    [2^16] on [uint16]; it is not concatenation. *)
Definition np_add (a b : list Z) : result (list Z) :=
  let add x y := (x + y) mod 2 ^ 16 in
  if len a =? len b then Ok (map (fun xy => add (fst xy) (snd xy)) (combine a b))
  else if len a =? 1 then Ok (map (add (hd 0 a)) b)
  else if len b =? 1 then Ok (map (fun x => add x (hd 0 b)) a)
  else Raise ValueError.

(** [int(q)] truncates toward zero. *)
Definition int_of_Q (q : Q) : Z := Z.quot (Qnum q) (Zpos (Qden q)).

(** ** The receive loops *)

(** [while True: packet_num, byte_count, packet_data = self._read_data_packet(); body]
    The body either goes round again with a new state ([inl]) or leaves
    the loop with a result ([inr]); an exception of the receive or of the
    body ends the loop. *)
Fixpoint while_True {S R : Type} (body : S -> packet -> result (S + R))
    (s : S) (sock : socket) : result (R * socket) :=
  match sock with
  | [] => Raise SocketTimeout
  | d :: rest =>
      match decode (recvfrom d) with
      | Raise e => Raise e
      | Ok p =>
          match body s p with
          | Raise e => Raise e
          | Ok (inl s') => while_True body s' rest
          | Ok (inr r) => Ok (r, rest)
          end
      end
  end.

(** ** [read] (lines 196-252) *)

Record frame_read : Type := {
  ret_frame : list Z;       (* the returned array *)
  lost_packets : Z          (* self.lost_packets *)
}.

(** Lines 221-228: wait for the start of the next frame. *)
Definition read_wait_body (ret_frame : list Z) (p : packet)
  : result (list Z + (list Z * Z)) :=
  if byte_count p mod BYTES_IN_FRAME_CLIPPED =? 0 then
    let packets_read := 1 in
    ret_frame <- set_slice ret_frame 0 UINT16_IN_PACKET (packet_data p) ;;
    Ok (inr (ret_frame, packets_read))
  else Ok (inl ret_frame).

(** Line 244. Python's [%] with a positive divisor is [Z.modulo]. *)
Definition curr_idx (p : packet) : Z :=
  (packet_num p - 1) mod PACKETS_IN_FRAME_CLIPPED.

(** Lines 245-248: the slot write, with every exception swallowed. *)
Definition write_slot (ret_frame : list Z) (p : packet) : list Z :=
  match set_slice ret_frame (curr_idx p * UINT16_IN_PACKET)
                  ((curr_idx p + 1) * UINT16_IN_PACKET) (packet_data p) with
  | Ok ret_frame' => ret_frame'
  | Raise _ => ret_frame
  end.

(** Lines 231-252: read in the rest of the frame. *)
Definition read_rest_body (st : list Z * Z) (p : packet)
  : result ((list Z * Z) + frame_read) :=
  let '(ret_frame, packets_read) := st in
  let packets_read := packets_read + 1 in
  if byte_count p mod BYTES_IN_FRAME_CLIPPED =? 0 then
    Ok (inr {| ret_frame := ret_frame;
               lost_packets := PACKETS_IN_FRAME_CLIPPED - packets_read |})
  else
    let ret_frame := write_slot ret_frame p in
    let packets_read :=
      if PACKETS_IN_FRAME_CLIPPED <? packets_read then 0 else packets_read in
    Ok (inl (ret_frame, packets_read)).

Definition read (sock : socket) : result frame_read :=
  ret_frame <- np_zeros UINT16_IN_FRAME ;;
  '(st, sock) <- while_True read_wait_body ret_frame sock ;;
  '(r, _) <- while_True read_rest_body st sock ;;
  Ok r.

(** ** [read_frames] (lines 147-194) *)

Record frames_read : Type := {
  frames : list Z;            (* leftover + ret_frame *)
  next_leftover : list Z;
  frames_lost_packets : Z     (* self.lost_packets *)
}.

(** Lines 183-194, one round of the loop. *)
Definition read_frames_body (leftover : list Z) (packets_left : Q)
    (data_end_byte : Z) (st : list Z * Z) (p : packet)
  : result ((list Z * Z) + frames_read) :=
  let '(ret_frame, packets_read) := st in
  let packets_read := packets_read + 1 in
  if data_end_byte <=? byte_count p then
    let next_frame_start := true_div (data_end_byte - byte_count p) 2 in
    head <- get_slice (packet_data p) (PyInt 0) next_frame_start ;;
    ret_frame <- set_item ret_frame (packet_num p - 1) head ;;
    next_leftover <- get_slice_from (packet_data p) next_frame_start ;;
    let lost_packets := int_of_Q packets_left + 1 - packets_read in
    frames <- np_add leftover ret_frame ;;
    Ok (inr {| frames := frames; next_leftover := next_leftover;
               frames_lost_packets := lost_packets |})
  else
    ret_frame <- set_item ret_frame (packet_num p - 1) (packet_data p) ;;
    Ok (inl (ret_frame, packets_read)).

Definition read_frames (leftover : list Z) (num_frames : Z) (sock : socket)
  : result frames_read :=
  let uint16_preread := len leftover in
  let packets_left :=
    (inject_Z num_frames * PACKETS_IN_FRAME
     - inject_Z uint16_preread / inject_Z UINT16_IN_PACKET)%Q in
  ret_frame <- np_zeros (num_frames * UINT16_IN_FRAME - uint16_preread) ;;
  (* Read first packet and check alignment *)
  '(p, sock) <- _read_data_packet sock ;;
  let packets_read := 1 in
  ret_frame <- set_slice ret_frame 0 UINT16_IN_PACKET (packet_data p) ;;
  let data_start_byte := byte_count p - BYTES_IN_PACKET - 2 * uint16_preread in
  (* lines 178-179 only print a warning when data_start_byte is not a
     multiple of BYTES_IN_FRAME *)
  (* Read the rest of the packets *)
  let data_end_byte := data_start_byte + num_frames * BYTES_IN_FRAME in
  '(r, _) <- while_True (read_frames_body leftover packets_left data_end_byte)
                        (ret_frame, packets_read) sock ;;
  Ok r.

(** ** [_send_command] (lines 23-46, 254-278) *)

Inductive CMD : Type :=
| RESET_FPGA_CMD_CODE
| RESET_AR_DEV_CMD_CODE
| CONFIG_FPGA_GEN_CMD_CODE
| CONFIG_EEPROM_CMD_CODE
| RECORD_START_CMD_CODE
| RECORD_STOP_CMD_CODE
| PLAYBACK_START_CMD_CODE
| PLAYBACK_STOP_CMD_CODE
| SYSTEM_CONNECT_CMD_CODE
| SYSTEM_ERROR_CMD_CODE
| CONFIG_PACKET_DATA_CMD_CODE
| CONFIG_DATA_MODE_AR_DEV_CMD_CODE
| INIT_FPGA_PLAYBACK_CMD_CODE
| READ_FPGA_VERSION_CMD_CODE.

(** [str(cmd)], the enumeration's value. *)
Definition CMD_str (cmd : CMD) : string :=
  match cmd with
  | RESET_FPGA_CMD_CODE => "0100"
  | RESET_AR_DEV_CMD_CODE => "0200"
  | CONFIG_FPGA_GEN_CMD_CODE => "0300"
  | CONFIG_EEPROM_CMD_CODE => "0400"
  | RECORD_START_CMD_CODE => "0500"
  | RECORD_STOP_CMD_CODE => "0600"
  | PLAYBACK_START_CMD_CODE => "0700"
  | PLAYBACK_STOP_CMD_CODE => "0800"
  | SYSTEM_CONNECT_CMD_CODE => "0900"
  | SYSTEM_ERROR_CMD_CODE => "0a00"
  | CONFIG_PACKET_DATA_CMD_CODE => "0b00"
  | CONFIG_DATA_MODE_AR_DEV_CMD_CODE => "0c00"
  | INIT_FPGA_PLAYBACK_CMD_CODE => "0d00"
  | READ_FPGA_VERSION_CMD_CODE => "0e00"
  end.

Definition CONFIG_HEADER : string := "5aa5".
Definition CONFIG_STATUS : string := "0000".
Definition CONFIG_FOOTER : string := "aaee".

(** The value of a hexadecimal digit, in either case. *)
Definition hex_digit (c : ascii) : option Z :=
  let n := Z.of_nat (nat_of_ascii c) in
  if (48 <=? n) && (n <=? 57) then Some (n - 48)
  else if (97 <=? n) && (n <=? 102) then Some (n - 87)
  else if (65 <=? n) && (n <=? 70) then Some (n - 55)
  else None.

(** [codecs.decode(s, 'hex')]: two digits a byte; an odd length or a
    character that is no digit is an error. *)
Fixpoint unhexlify (s : string) : result (list byte) :=
  match s with
  | EmptyString => Ok []
  | String _ EmptyString => Raise BinasciiError
  | String a (String b s') =>
      match hex_digit a, hex_digit b with
      | Some h, Some l =>
          bs <- unhexlify s' ;; Ok (byte_of_Z (16 * h + l) :: bs)
      | _, _ => Raise BinasciiError
      end
  end.

(** Line 272: the message. *)
Definition command_message (cmd : CMD) (length body : string) : result (list byte) :=
  unhexlify (CONFIG_HEADER ++ CMD_str cmd ++ length ++ body ++ CONFIG_FOOTER)%string.


(** ** [organize_frames] (lines 347-366) *)

(** [complex128] values whose parts are small integers, which a float
    holds exactly. *)
Record complex : Type := { re : Z; im : Z }.

Definition Cadd (a b : complex) : complex :=
  {| re := re a + re b; im := im a + im b |}.
Definition Cmul (a b : complex) : complex :=
  {| re := re a * re b - im a * im b; im := re a * im b + im a * re b |}.
Definition C_of_int (x : Z) : complex := {| re := x; im := 0 |}.
Definition imag_unit : complex := {| re := 0; im := 1 |}.   (* 1j *)

(** [astype(np.int16)] on a [uint16]: the same 16 bits, signed. *)
Definition astype_int16 (x : Z) : Z :=
  let u := x mod 2 ^ 16 in if u <? 2 ^ 15 then u else u - 2 ^ 16.

(** [count] consecutive pieces of [size] items: one axis of a row-major
    reshape. *)
Fixpoint split_into {A} (count size : nat) (l : list A) : list (list A) :=
  match count with
  | O => []
  | S c => firstn size l :: split_into c size (skipn size l)
  end.

Definition tensor4 (A : Type) : Type := list (list (list (list A))).
Definition tensor5 (A : Type) : Type := list (tensor4 A).

(** [a.reshape((d0, d1, d2, d3, d4))], dimensions being counts. *)
Definition reshape5 {A} (a : list A) (d0 d1 d2 d3 d4 : nat) : result (tensor5 A) :=
  if (length a =? d0 * d1 * d2 * d3 * d4)%nat then
    Ok (map (fun a0 =>
          map (fun a1 =>
            map (fun a2 => split_into d3 d4 a2)
                (split_into d2 (d3 * d4) a1))
              (split_into d1 (d2 * d3 * d4) a0))
            (split_into d0 (d1 * d2 * d3 * d4) a))
  else Raise ValueError.

(** [a[:, :, :, k, :]] on an array whose fourth axis has [d3] items. *)
Definition take_axis3 {A} (k d3 : nat) (a : tensor5 A) : result (tensor4 A) :=
  if (k <? d3)%nat then Ok (map (map (map (fun x => nth k x [])))  a)
  else Raise IndexError.

Definition zip_with {A B C} (f : A -> B -> C) (a : list A) (b : list B) : list C :=
  map (fun ab => f (fst ab) (snd ab)) (combine a b).

(** [np.transpose(a, (0, 1, 3, 2))] on an array whose last axis has
    [d3] items. *)
Definition transpose_last2 {A} (d3 : nat) (a : tensor4 A) : tensor4 A :=
  map (map (fun m => map (fun j => flat_map (fun row => firstn 1 (skipn j row)) m)
                         (seq 0 d3))) a.

Definition organize_frames (raw_data : list Z)
    (num_frames chirps_per_frame num_rx samples_per_chirp complexity : nat)
  : result (tensor4 complex) :=
  let raw_data := map astype_int16 raw_data in
  raw_data <- reshape5 raw_data num_frames chirps_per_frame samples_per_chirp
                       complexity num_rx ;;
  real <- take_axis3 0 complexity raw_data ;;
  imag <- take_axis3 1 complexity raw_data ;;
  let raw_data :=
    zip_with (zip_with (zip_with (zip_with
      (fun x y => Cadd (C_of_int x) (Cmul imag_unit (C_of_int y))))))
      real imag in
  Ok (transpose_last2 num_rx raw_data).

(** [a[f, c, r, s]] *)
Definition tensor_get {A} (a : tensor4 A) (f c r s : nat) : option A :=
  match nth_error a f with
  | Some a0 =>
      match nth_error a0 c with
      | Some a1 =>
          match nth_error a1 r with
          | Some a2 => nth_error a2 s
          | None => None
          end
      | None => None
      end
  | None => None
  end.

(** The shape of a non-empty four-axis array. *)
Definition shape4 {A} (a : tensor4 A) : list nat :=
  let a0 := hd [] a in
  let a1 := hd [] a0 in
  let a2 := hd [] a1 in
  [length a; length a0; length a1; length a2].

(** ** Auxiliary definitions for the statements *)

(** The input of the reorganiser example. *)
Definition example_raw : list Z := [1; 2; 3; 4; 5; 6; 7; 8].

(** The range of a sample word, and packets that the wire format can
    carry. *)
Definition uint16 (w : Z) : Prop := 0 <= w < 2 ^ 16.

Definition well_formed (p : packet) : Prop :=
  - 2 ^ 31 <= packet_num p < 2 ^ 31
  /\ 0 <= byte_count p < 2 ^ 48
  /\ Forall uint16 (packet_data p).

Definition zeros (n : Z) : list Z := repeat 0 (Z.to_nat n).

(** The frame buffer that [read] starts from. *)
Definition zero_frame : list Z := zeros UINT16_IN_FRAME.

Definition is_ok {A} (r : result A) : bool :=
  match r with Ok _ => true | Raise _ => false end.

(** The packet number [k] (from 0) of a synthetic stream without loss:
    sequence number [k + 1], [k * BYTES_IN_PACKET] bytes sent before it,
    and a full payload of non-zero words. *)
Definition synth_packet (k : Z) : packet :=
  {| packet_num := k + 1;
     byte_count := k * BYTES_IN_PACKET;
     packet_data := map (fun i => (k + Z.of_nat i) mod 65535 + 1)
                        (seq 0 (Z.to_nat UINT16_IN_PACKET)) |}.

Definition synth_stream (k0 : Z) (n : nat) : socket :=
  map (fun i => encode_packet (synth_packet (k0 + Z.of_nat i))) (seq 0 n).

(** A datagram of three bytes, and a stream of two frame-start packets
    (the packets in between lost). *)
Definition short_datagram : datagram := [x01; x00; x00].

Definition boundary_pair : socket :=
  [ encode_packet {| packet_num := 1; byte_count := 0;
                     packet_data := repeat 7 (Z.to_nat UINT16_IN_PACKET) |};
    encode_packet {| packet_num := 361; byte_count := BYTES_IN_FRAME_CLIPPED;
                     packet_data := repeat 9 (Z.to_nat UINT16_IN_PACKET) |} ].

(** What a datagram carries, as the decoder reads it. *)
Definition decoded (d : datagram) : result packet := decode (recvfrom d).

Definition payload (d : datagram) : list Z :=
  match decoded d with
  | Ok p => packet_data p
  | Raise _ => []
  end.

(** The datagram is packet number [k] (from 0) of a stream without loss:
    sequence number [k + 1], byte counter [k * BYTES_IN_PACKET], a full
    payload. *)
Definition in_order_at (k : Z) (d : datagram) : bool :=
  match decoded d with
  | Ok p => (packet_num p =? k + 1)
            && (byte_count p =? k * BYTES_IN_PACKET)
            && (len (packet_data p) =? UINT16_IN_PACKET)
  | Raise _ => false
  end.

Fixpoint in_order_from (k : Z) (ds : socket) : bool :=
  match ds with
  | [] => true
  | d :: ds' => in_order_at k d && in_order_from (k + 1) ds'
  end.

(** The datagram decodes and its byte counter is frame-aligned (line 224
    and line 237). *)
Definition frame_start (d : datagram) : bool :=
  match decoded d with
  | Ok p => byte_count p mod BYTES_IN_FRAME_CLIPPED =? 0
  | Raise _ => false
  end.

(** [w] in place of the items [lo .. lo + length w - 1] of [a]. *)
Definition splice (lo : nat) (w a : list Z) : list Z :=
  firstn lo a ++ w ++ skipn (lo + length w) a.

(** Lines 250-252: the packet counter after one more packet of the
    frame. *)
Definition count_packet (packets_read : Z) : Z :=
  if PACKETS_IN_FRAME_CLIPPED <? packets_read + 1 then 0 else packets_read + 1.

(** A synthetic stream without loss that holds one whole clipped frame:
    packets 0 to 358 and packet 359, then packet 360, the start of the
    next frame. *)
Definition frame_init : socket := synth_stream 0 359.
Definition frame_last : datagram := encode_packet (synth_packet 359).
Definition one_frame : socket := frame_init ++ [frame_last].
Definition next_start : datagram := encode_packet (synth_packet 360).

(** The packet of a datagram that decodes (an empty packet otherwise),
    and the slot that [read] gives it. *)
Definition packet_of (d : datagram) : packet :=
  match decoded d with
  | Ok p => p
  | Raise _ => {| packet_num := 0; byte_count := 0; packet_data := [] |}
  end.

Definition slot_of (d : datagram) : Z := curr_idx (packet_of d).

(** The datagram decodes and is not a frame start: a packet of the
    inside of a frame. *)
Definition inside_frame (d : datagram) : bool :=
  match decoded d with
  | Ok p => negb (byte_count p mod BYTES_IN_FRAME_CLIPPED =? 0)
  | Raise _ => false
  end.

(** [read] from the first loop on, for a given buffer. *)
Definition read_from (frame : list Z) (sock : socket) : result frame_read :=
  '(st, sock) <- while_True read_wait_body frame sock ;;
  '(r, _) <- while_True read_rest_body st sock ;;
  Ok r.

(** The second loop of [read], the rest of the socket dropped. *)
Definition read_rest (st : list Z * Z) (sock : socket) : result frame_read :=
  '(r, _) <- while_True read_rest_body st sock ;;
  Ok r.


(** The text of a byte string, two lower-case digits a byte (Python's
    [bytes.hex()]): how a caller writes the [length] and [body]
    arguments of [_send_command]. *)
Definition hex_char (n : Z) : ascii :=
  ascii_of_nat (Z.to_nat (if n <? 10 then 48 + n else 87 + n)).

Definition hex_text (bs : list byte) : string :=
  fold_right (fun b s => String (hex_char (Z_of_byte b / 16))
                           (String (hex_char (Z_of_byte b mod 16)) s))
             EmptyString bs.

(** The slot writes of a run of datagrams, in the order of delivery, on
    a buffer (lines 244-248, once for every packet of the run). *)
Definition write_run (run : socket) (frame : list Z) : list Z :=
  fold_left (fun f d => write_slot f (packet_of d)) run frame.

(** ** [configure], [_start_stream], [_stop_stream] (lines 114-145, 305-345) *)






(** ** [organize] (lines 368-386) *)

Definition tensor3 (A : Type) : Type := list (list (list A)).

(** [a.reshape((d0, d1, d2, d3))] *)
Definition reshape4 {A} (a : list A) (d0 d1 d2 d3 : nat) : result (tensor4 A) :=
  if (length a =? d0 * d1 * d2 * d3)%nat then
    Ok (map (fun a0 =>
          map (fun a1 => split_into d2 d3 a1)
              (split_into d1 (d2 * d3) a0))
            (split_into d0 (d1 * d2 * d3) a))
  else Raise ValueError.

(** [a[:, :, k, :]] on an array whose third axis has [d2] items. *)
Definition take_axis2 {A} (k d2 : nat) (a : tensor4 A) : result (tensor3 A) :=
  if (k <? d2)%nat then Ok (map (map (fun x => nth k x []))  a)
  else Raise IndexError.

(** [np.transpose(a, (0, 2, 1))] on an array whose last axis has [d2]
    items. *)
Definition transpose_last2_of3 {A} (d2 : nat) (a : tensor3 A) : tensor3 A :=
  map (fun m => map (fun j => flat_map (fun row => firstn 1 (skipn j row)) m)
                    (seq 0 d2)) a.

Definition organize (raw_frame : list Z) (num_chirps num_rx num_samples : nat)
  : result (tensor3 complex) :=
  let raw_frame := map astype_int16 raw_frame in
  raw_frame <- reshape4 raw_frame num_chirps num_samples 2 num_rx ;;
  real <- take_axis2 0 2 raw_frame ;;
  imag <- take_axis2 1 2 raw_frame ;;
  let raw_frame :=
    zip_with (zip_with (zip_with
      (fun x y => Cadd (C_of_int x) (Cmul imag_unit (C_of_int y)))))
      real imag in
  Ok (transpose_last2_of3 num_rx raw_frame).

(** [l] has [n] items, and item [i] is [v i]. *)
Definition tab {A} (n : nat) (l : list A) (v : nat -> A) : Prop :=
  length l = n /\ forall i, (i < n)%nat -> nth_error l i = Some (v i).

(** One sample of the reorganised data: the I part from the word at
    [at_], the Q part from the word [num_rx] items further. *)
Definition iq_sample (raw : list Z) (i q : nat) : complex :=
  {| re := astype_int16 (nth i raw 0); im := astype_int16 (nth q raw 0) |}.

(** * Properties *)

(** ** Stream constants *)

Lemma clipped_frame_multiple_le (p : adc_params) :
  bytes_in_frame_clipped p mod BYTES_IN_PACKET = 0
  /\ bytes_in_frame_clipped p <= bytes_in_frame p.
Proof.
  unfold bytes_in_frame_clipped, BYTES_IN_PACKET. split.
  - apply Z.mod_mul. lia.
  - pose proof (Z.mul_div_le (bytes_in_frame p) 1456). lia.
Qed.

(** C8: with chirps=128, rx=4, tx=1, IQ=1, samples=256, bytes=4 the
    derived constants are BYTES_IN_FRAME = 524288,
    BYTES_IN_FRAME_CLIPPED = 524160 and PACKETS_IN_FRAME_CLIPPED = 360;
    the clipped size is a multiple of BYTES_IN_PACKET and does not exceed
    the frame size. *)
Theorem derived_constants :
  ADC_PARAMS = {| chirps := 128; rx := 4; tx := 1; samples := 256; IQ := 1; bytes := 4 |}
  /\ BYTES_IN_PACKET = 1456
  /\ BYTES_IN_FRAME = 524288
  /\ BYTES_IN_FRAME_CLIPPED = 524160
  /\ PACKETS_IN_FRAME_CLIPPED = 360
  /\ BYTES_IN_FRAME_CLIPPED mod BYTES_IN_PACKET = 0
  /\ BYTES_IN_FRAME_CLIPPED <= BYTES_IN_FRAME.
Proof.
  repeat split; try reflexivity.
  apply (clipped_frame_multiple_le ADC_PARAMS).
Qed.

Lemma UINT16_IN_PACKET_eq : UINT16_IN_PACKET = 728.
Proof. reflexivity. Qed.

Lemma UINT16_IN_FRAME_eq : UINT16_IN_FRAME = 262144.
Proof. reflexivity. Qed.

Lemma PACKETS_IN_FRAME_CLIPPED_eq : PACKETS_IN_FRAME_CLIPPED = 360.
Proof. reflexivity. Qed.

Lemma BYTES_IN_FRAME_CLIPPED_eq : BYTES_IN_FRAME_CLIPPED = 524160.
Proof. reflexivity. Qed.

Lemma BYTES_IN_FRAME_eq : BYTES_IN_FRAME = 524288.
Proof. reflexivity. Qed.

(** ** The sample reorganiser *)

(** C2, as stated, fails: on [1..8] with frames=1, chirps=2, rx=2,
    samples=1, complexity=2 the result does not hold 1+2i at (0,0,0,0)
    and 7+8i at (0,1,1,0). *)
Lemma organize_frames_example_not_1_2_7_8 :
  ~ (exists t,
       organize_frames example_raw 1 2 2 1 2 = Ok t
       /\ tensor_get t 0 0 0 0 = Some {| re := 1; im := 2 |}
       /\ tensor_get t 0 1 1 0 = Some {| re := 7; im := 8 |}).
Proof.
  intros [t [Ht [H0 _]]].
  vm_compute in Ht. injection Ht as <-.
  vm_compute in H0. discriminate H0.
Qed.

(** C2, amended: the receiver axis is the innermost one of the reshape,
    so the two I/Q parts of a sample lie num_rx items apart: the result
    is a 1x2x2x1 array with 1+3i at (0,0,0,0) and 6+8i at (0,1,1,0). *)
Theorem organize_frames_example :
  exists t,
    organize_frames example_raw 1 2 2 1 2 = Ok t
    /\ shape4 t = [1; 2; 2; 1]%nat
    /\ tensor_get t 0 0 0 0 = Some {| re := 1; im := 3 |}
    /\ tensor_get t 0 1 1 0 = Some {| re := 6; im := 8 |}.
Proof.
  eexists. split; [vm_compute; reflexivity|].
  repeat split.
Qed.

(** ** The packet codec *)

Lemma Z_of_byte_range (b : byte) : 0 <= Z_of_byte b < 256.
Proof.
  unfold Z_of_byte. pose proof (Byte.to_N_bounded b). lia.
Qed.

Lemma Z_of_byte_of_Z (z : Z) : Z_of_byte (byte_of_Z z) = z mod 256.
Proof.
  unfold Z_of_byte, byte_of_Z.
  pose proof (Z.mod_pos_bound z 256 ltac:(lia)) as Hz.
  destruct (Byte.of_N (Z.to_N (z mod 256))) as [b|] eqn:E.
  - apply Byte.to_of_N in E. rewrite E. lia.
  - apply Byte.of_N_None_iff in E. lia.
Qed.

Lemma length_le_bytes (n : nat) (z : Z) : length (le_bytes n z) = n.
Proof.
  revert z. induction n as [|n IH]; intros z; simpl; [reflexivity|].
  now rewrite IH.
Qed.

Lemma le_uint_le_bytes (n : nat) (z : Z) :
  le_uint (le_bytes n z) = z mod 256 ^ Z.of_nat n.
Proof.
  revert z. induction n as [|n IH]; intros z.
  - simpl. now rewrite Z.mod_1_r.
  - cbn [le_bytes le_uint]. rewrite Z_of_byte_of_Z, IH.
    rewrite Nat2Z.inj_succ, Z.pow_succ_r by lia.
    rewrite Z.rem_mul_r by lia. reflexivity.
Qed.

Lemma be_uint_rev (bs : list byte) : be_uint (rev bs) = le_uint bs.
Proof.
  unfold be_uint.
  induction bs as [|b bs IH]; cbn [rev le_uint]; [reflexivity|].
  rewrite fold_left_app. cbn [fold_left]. rewrite IH. lia.
Qed.

Lemma be_uint_zero_prefix (bs : list byte) :
  be_uint ([x00; x00] ++ bs) = be_uint bs.
Proof. reflexivity. Qed.

Lemma frombuffer_le_words (ws : list Z) :
  Forall uint16 ws ->
  frombuffer_uint16 (flat_map (le_bytes 2) ws) = Ok ws.
Proof.
  induction 1 as [|w ws Hw _ IH]; [reflexivity|].
  change (flat_map (le_bytes 2) (w :: ws))
    with (byte_of_Z w :: byte_of_Z (w / 256) :: flat_map (le_bytes 2) ws).
  cbn [frombuffer_uint16]. rewrite IH. cbn [bind].
  rewrite !Z_of_byte_of_Z. f_equal. f_equal.
  unfold uint16 in Hw.
  rewrite <- (Z.rem_mul_r w 256 256) by lia.
  apply Z.mod_small. change (256 * 256) with (2 ^ 16). exact Hw.
Qed.

Lemma int32_wrap (s : Z) :
  - 2 ^ 31 <= s < 2 ^ 31 ->
  (if s mod 2 ^ 32 <? 2 ^ 31 then s mod 2 ^ 32 else s mod 2 ^ 32 - 2 ^ 32) = s.
Proof.
  intros Hs. destruct (Z.ltb_spec s 0) as [Hneg|Hpos].
  - replace (s mod 2 ^ 32) with (s + 2 ^ 32).
    + destruct (Z.ltb_spec (s + 2 ^ 32) (2 ^ 31)); lia.
    + symmetry. rewrite <- (Z.mod_add s 1 (2 ^ 32)) by lia.
      apply Z.mod_small. lia.
  - rewrite Z.mod_small by lia.
    destruct (Z.ltb_spec s (2 ^ 31)); lia.
Qed.

Lemma decode_header_payload (s b : Z) (payload : list byte) :
  - 2 ^ 31 <= s < 2 ^ 31 ->
  0 <= b < 2 ^ 48 ->
  decode (encode_header s b ++ payload)
  = (ws <- frombuffer_uint16 payload ;;
     Ok {| packet_num := s; byte_count := b; packet_data := ws |}).
Proof.
  intros Hs Hb. unfold decode, encode_header.
  cbn [le_bytes app bslice Nat.sub firstn skipn].
  unfold unpack_int32_le. cbn [length Nat.eqb]. cbn [bind].
  unfold unpack_uint64_be.
  match goal with |- context [rev ?l] =>
    change l with (le_bytes 6 b);
    change (x00 :: x00 :: rev (le_bytes 6 b)) with ([x00; x00] ++ rev (le_bytes 6 b))
  end.
  rewrite length_app, length_rev, length_le_bytes. cbn [length Nat.add Nat.eqb bind].
  rewrite be_uint_zero_prefix, be_uint_rev.
  match goal with |- context [le_uint (byte_of_Z s :: ?l)] =>
    change (byte_of_Z s :: l) with (le_bytes 4 s) end.
  rewrite !le_uint_le_bytes.
  change (256 ^ Z.of_nat 4) with (2 ^ 32).
  change (256 ^ Z.of_nat 6) with (2 ^ 48).
  rewrite int32_wrap by assumption.
  rewrite (Z.mod_small b) by assumption.
  reflexivity.
Qed.

Lemma decode_encode_packet (p : packet) :
  well_formed p -> decode (encode_packet p) = Ok p.
Proof.
  intros (Hs & Hb & Hw). unfold encode_packet.
  rewrite decode_header_payload by assumption.
  rewrite frombuffer_le_words by assumption.
  destruct p; reflexivity.
Qed.

(** C6: a header written in the documented wire format (sequence number
    as 4 little-endian bytes, two's complement; byte counter as 6
    little-endian bytes), followed by any sample words, decodes to
    exactly that sequence number and byte counter. *)
Theorem decode_encode_header (s b : Z) (ws : list Z) :
  - 2 ^ 31 <= s < 2 ^ 31 ->
  0 <= b < 2 ^ 48 ->
  Forall uint16 ws ->
  decode (encode_header s b ++ flat_map (le_bytes 2) ws)
  = Ok {| packet_num := s; byte_count := b; packet_data := ws |}.
Proof.
  intros Hs Hb Hw.
  apply (decode_encode_packet {| packet_num := s; byte_count := b; packet_data := ws |}).
  repeat split; assumption || apply Hs || apply Hb.
Qed.

Lemma decode_encode_header_witness :
  decode (encode_header (-2) 281474976710655 ++ flat_map (le_bytes 2) [65535; 0; 258])
  = Ok {| packet_num := -2; byte_count := 281474976710655;
          packet_data := [65535; 0; 258] |}.
Proof.
  apply (decode_encode_header (-2) 281474976710655 [65535; 0; 258]).
  - lia.
  - lia.
  - repeat constructor; unfold uint16; lia.
Defined.

(** ** The command builder *)

Lemma bind_ret_nil (r : result (list byte)) :
  (y <- r ;; Ok ([] ++ y)) = r.
Proof. destruct r; reflexivity. Qed.

(** Decoding hexadecimal text distributes over concatenation once the
    left part is well-formed on its own. *)
Lemma unhexlify_app_pair (a : string) :
  (forall x b, unhexlify a = Ok x ->
     unhexlify (a ++ b)%string = (y <- unhexlify b ;; Ok (x ++ y)))
  /\ (forall c x b, unhexlify (String c a) = Ok x ->
     unhexlify (String c a ++ b)%string = (y <- unhexlify b ;; Ok (x ++ y))).
Proof.
  induction a as [|d a [IH0 IH1]].
  - split.
    + intros x b H. injection H as <-. cbn [String.append].
      symmetry. apply bind_ret_nil.
    + intros c x b H. discriminate H.
  - split.
    + intros x b H. apply IH1. exact H.
    + intros c x b H. cbn [String.append unhexlify] in *.
      destruct (hex_digit c) as [h|]; [|discriminate H].
      destruct (hex_digit d) as [l|]; [|discriminate H].
      destruct (unhexlify a) as [bs|e] eqn:Ea; [|discriminate H].
      cbn [bind] in H. injection H as <-.
      rewrite (IH0 bs b eq_refl).
      destruct (unhexlify b); reflexivity.
Qed.

Lemma unhexlify_app (a b : string) (x y : list byte) :
  unhexlify a = Ok x -> unhexlify b = Ok y ->
  unhexlify (a ++ b)%string = Ok (x ++ y).
Proof.
  intros Ha Hb. rewrite (proj1 (unhexlify_app_pair a) x b Ha), Hb. reflexivity.
Qed.

Lemma CMD_str_two_bytes (cmd : CMD) :
  exists c0 c1, unhexlify (CMD_str cmd) = Ok [c0; c1].
Proof. destruct cmd; do 2 eexists; reflexivity. Qed.

(** C9: for every command code, every length field that is the text of
    two bytes and every body that is the text of a byte string, the
    message is the header 5A A5, the two bytes of the command code, the
    two bytes of the length field, the body and the footer AA EE, and
    nothing else. *)
Theorem command_message_layout (cmd : CMD) (length body : string)
    (lfield bbytes : list byte) :
  unhexlify length = Ok lfield ->
  List.length lfield = 2%nat ->
  unhexlify body = Ok bbytes ->
  exists c0 c1,
    unhexlify (CMD_str cmd) = Ok [c0; c1]
    /\ command_message cmd length body
       = Ok ([x5a; xa5] ++ [c0; c1] ++ lfield ++ bbytes ++ [xaa; xee])
    /\ forall msg, command_message cmd length body = Ok msg ->
         List.length msg = (8 + List.length bbytes)%nat.
Proof.
  intros Hl Hlen Hb.
  destruct (CMD_str_two_bytes cmd) as (c0 & c1 & Hc).
  exists c0, c1. split; [exact Hc|].
  assert (Hmsg : command_message cmd length body
                 = Ok ([x5a; xa5] ++ [c0; c1] ++ lfield ++ bbytes ++ [xaa; xee])).
  { unfold command_message.
    apply unhexlify_app; [reflexivity|].
    apply unhexlify_app; [exact Hc|].
    apply unhexlify_app; [exact Hl|].
    apply unhexlify_app; [exact Hb|reflexivity]. }
  split; [exact Hmsg|].
  intros msg H. rewrite Hmsg in H. injection H as <-.
  cbn [List.length]. rewrite !length_app, Hlen. cbn [List.length]. lia.
Qed.

(** The CONFIG_FPGA_GEN command that [configure] sends (line 139). *)
Lemma command_message_layout_witness :
  exists c0 c1,
    unhexlify (CMD_str CONFIG_FPGA_GEN_CMD_CODE) = Ok [c0; c1]
    /\ command_message CONFIG_FPGA_GEN_CMD_CODE "0600" "01010102031e"
       = Ok ([x5a; xa5] ++ [c0; c1] ++ [x06; x00]
             ++ [x01; x01; x01; x02; x03; x1e] ++ [xaa; xee])
    /\ forall msg,
         command_message CONFIG_FPGA_GEN_CMD_CODE "0600" "01010102031e" = Ok msg ->
         List.length msg = (8 + List.length [x01; x01; x01; x02; x03; x1e])%nat.
Proof.
  apply (command_message_layout CONFIG_FPGA_GEN_CMD_CODE "0600" "01010102031e"
           [x06; x00] [x01; x01; x01; x02; x03; x1e]).
  - reflexivity.
  - reflexivity.
  - reflexivity.
Defined.

Lemma unhexlify_hex_text (bs : list byte) : unhexlify (hex_text bs) = Ok bs.
Proof.
  induction bs as [|b bs IH]; [reflexivity|].
  cbn [hex_text fold_right]. fold (hex_text bs). cbn [unhexlify].
  rewrite IH. destruct b; reflexivity.
Qed.

(** The same layout for arguments given as byte strings. *)
Corollary command_message_of_bytes (cmd : CMD) (l0 l1 : byte) (bbytes : list byte) :
  exists c0 c1,
    unhexlify (CMD_str cmd) = Ok [c0; c1]
    /\ command_message cmd (hex_text [l0; l1]) (hex_text bbytes)
       = Ok ([x5a; xa5] ++ [c0; c1] ++ [l0; l1] ++ bbytes ++ [xaa; xee]).
Proof.
  destruct (CMD_str_two_bytes cmd) as (c0 & c1 & Hc).
  exists c0, c1. split; [exact Hc|].
  unfold command_message.
  apply unhexlify_app; [reflexivity|].
  apply unhexlify_app; [exact Hc|].
  apply unhexlify_app; [apply unhexlify_hex_text|].
  apply unhexlify_app; [apply unhexlify_hex_text|reflexivity].
Qed.

Example command_message_system_connect :
  command_message SYSTEM_CONNECT_CMD_CODE "0000" ""
  = Ok [x5a; xa5; x09; x00; x00; x00; xaa; xee].
Proof. reflexivity. Qed.

(** ** Undersized datagrams *)

Lemma np_zeros_frame : np_zeros UINT16_IN_FRAME = Ok zero_frame.
Proof.
  unfold np_zeros, zero_frame, zeros.
  destruct (Z.ltb_spec UINT16_IN_FRAME 0) as [H|H]; [|reflexivity].
  pose proof UINT16_IN_FRAME_eq. lia.
Qed.

Lemma read_unfold (sock : socket) :
  read sock
  = ('(st, sock) <- while_True read_wait_body zero_frame sock ;;
     '(r, _) <- while_True read_rest_body st sock ;;
     Ok r).
Proof. unfold read. rewrite np_zeros_frame. reflexivity. Qed.

Lemma decode_short (data : datagram) :
  (List.length data < 10)%nat -> decode data = Raise StructError.
Proof.
  intros Hlen. unfold decode, unpack_int32_le, unpack_uint64_be, bslice.
  destruct (Nat.eqb_spec (List.length (firstn (4 - 0) (skipn 0 data))) 4) as [H4|H4];
    [|reflexivity].
  cbn [bind].
  destruct (Nat.eqb_spec
              (List.length ([x00; x00] ++ rev (firstn (10 - 4) (skipn 4 data)))) 8)
    as [H8|H8]; [|reflexivity].
  exfalso. rewrite length_app, length_rev, length_firstn, length_skipn in H8.
  cbn [List.length] in H8. lia.
Qed.

Lemma take_length {A} (l : list A) :
  forall n, (List.length (take n l) <= List.length l)%nat.
Proof.
  induction l as [|x l IH]; intros n; cbn [take List.length]; [lia|].
  destruct (0 <? n); cbn [List.length]; [|lia].
  specialize (IH (n - 1)). lia.
Qed.

Lemma recvfrom_length (d : datagram) :
  (List.length (recvfrom d) <= List.length d)%nat.
Proof. apply take_length. Qed.

Lemma while_True_undecodable {S R : Type} (body : S -> packet -> result (S + R))
    (s : S) (d : datagram) (rest : socket) (e : exn) :
  decode (recvfrom d) = Raise e ->
  while_True body s (d :: rest) = Raise e.
Proof. intros H. cbn [while_True]. rewrite H. reflexivity. Qed.

(** C7, as stated, fails: a short datagram is not dropped.  The stream
    [boundary_pair] gives a frame, and the same stream after a short
    datagram gives [struct.error]. *)
Lemma short_datagram_not_dropped :
  (List.length short_datagram < 10)%nat
  /\ is_ok (read boundary_pair) = true
  /\ read (short_datagram :: boundary_pair) = Raise StructError
  /\ read (short_datagram :: boundary_pair) <> read boundary_pair.
Proof.
  assert (H1 : is_ok (read boundary_pair) = true) by (vm_compute; reflexivity).
  assert (H2 : read (short_datagram :: boundary_pair) = Raise StructError)
    by reflexivity.
  split; [cbn; lia|]. split; [exact H1|]. split; [exact H2|].
  intros E. rewrite H2 in E. rewrite <- E in H1. discriminate H1.
Qed.

(** C7, amended: a datagram shorter than 10 bytes makes the decoder raise
    [struct.error]; no loop catches it: [_read_data_packet] raises, any
    receive loop that gets the datagram ends with that error, and so does
    [read], whether the datagram comes first or after the frame start. *)
Theorem short_datagram_raises (d : datagram) :
  (List.length d < 10)%nat ->
  decode d = Raise StructError
  /\ (forall rest, _read_data_packet (d :: rest) = Raise StructError)
  /\ (forall (S R : Type) (body : S -> packet -> result (S + R)) s rest,
        while_True body s (d :: rest) = Raise StructError)
  /\ (forall rest, read (d :: rest) = Raise StructError)
  /\ (forall d0 p0 rest,
        decode (recvfrom d0) = Ok p0 ->
        byte_count p0 mod BYTES_IN_FRAME_CLIPPED = 0 ->
        len (packet_data p0) = UINT16_IN_PACKET ->
        read (d0 :: d :: rest) = Raise StructError).
Proof.
  intros Hlen.
  assert (Hd : decode (recvfrom d) = Raise StructError).
  { apply decode_short. pose proof (recvfrom_length d). lia. }
  split; [apply decode_short; exact Hlen|].
  split; [intros rest; cbn [_read_data_packet]; rewrite Hd; reflexivity|].
  split; [intros S R body s rest; apply while_True_undecodable; exact Hd|].
  split.
  - intros rest. rewrite read_unfold.
    rewrite (while_True_undecodable _ _ _ _ _ Hd). reflexivity.
  - intros d0 p0 rest H0 Hal Hpl. rewrite read_unfold.
    cbn [while_True]. rewrite H0.
    unfold read_wait_body. rewrite Hal. cbn [Z.eqb].
    destruct (set_slice _ 0 UINT16_IN_PACKET (packet_data p0)) as [rf|e] eqn:Es.
    + cbn [bind]. rewrite (while_True_undecodable _ _ _ _ _ Hd). reflexivity.
    + exfalso. unfold set_slice, broadcast_to in Es.
      replace (len (packet_data p0) =? _) with true in Es; [discriminate Es|].
      symmetry. apply Z.eqb_eq. rewrite Hpl. vm_compute. reflexivity.
Qed.

Lemma short_datagram_raises_witness :
  decode short_datagram = Raise StructError
  /\ (forall rest, _read_data_packet (short_datagram :: rest) = Raise StructError)
  /\ (forall (S R : Type) (body : S -> packet -> result (S + R)) s rest,
        while_True body s (short_datagram :: rest) = Raise StructError)
  /\ (forall rest, read (short_datagram :: rest) = Raise StructError)
  /\ (forall d0 p0 rest,
        decode (recvfrom d0) = Ok p0 ->
        byte_count p0 mod BYTES_IN_FRAME_CLIPPED = 0 ->
        len (packet_data p0) = UINT16_IN_PACKET ->
        read (d0 :: short_datagram :: rest) = Raise StructError).
Proof.
  apply (short_datagram_raises short_datagram). cbn. lia.
Defined.

(** ** Slice assignment *)

Lemma len_nonneg {A} (l : list A) : 0 <= len l.
Proof. unfold len. lia. Qed.

Lemma len_app {A} (l1 l2 : list A) : len (l1 ++ l2) = len l1 + len l2.
Proof. unfold len. rewrite length_app. lia. Qed.

Lemma len_repeat {A} (x : A) (n : Z) : 0 <= n -> len (repeat x (Z.to_nat n)) = n.
Proof. intros H. unfold len. rewrite repeat_length. lia. Qed.

Lemma len_zero_frame : len zero_frame = UINT16_IN_FRAME.
Proof. apply len_repeat. rewrite UINT16_IN_FRAME_eq. lia. Qed.

Lemma clamp_index_in (n i : Z) : 0 <= i <= n -> clamp_index n i = i.
Proof.
  intros H. unfold clamp_index.
  destruct (Z.ltb_spec i 0); lia.
Qed.

(** A slice that lies inside the array has the length asked for. *)
Lemma set_slice_inside (a v : list Z) (lo hi : Z) :
  0 <= lo <= hi -> hi <= len a ->
  set_slice a lo hi v
  = (v' <- broadcast_to v (hi - lo) ;;
     Ok (firstn (Z.to_nat lo) a ++ v' ++ skipn (Z.to_nat hi) a)).
Proof.
  intros Hlo Hhi. unfold set_slice.
  rewrite !clamp_index_in by lia.
  rewrite Z.max_r by lia.
  replace (lo + (hi - lo)) with hi by lia. reflexivity.
Qed.

Lemma set_slice_exact (a v : list Z) (lo : Z) :
  0 <= lo -> lo + len v <= len a ->
  set_slice a lo (lo + len v) v
  = Ok (firstn (Z.to_nat lo) a ++ v ++ skipn (Z.to_nat (lo + len v)) a).
Proof.
  intros Hlo Hhi. pose proof (len_nonneg v).
  rewrite set_slice_inside by lia.
  unfold broadcast_to.
  replace (lo + len v - lo) with (len v) by lia.
  rewrite Z.eqb_refl. reflexivity.
Qed.

Lemma curr_idx_range (p : packet) : 0 <= curr_idx p < PACKETS_IN_FRAME_CLIPPED.
Proof.
  unfold curr_idx. apply Z.mod_pos_bound.
  rewrite PACKETS_IN_FRAME_CLIPPED_eq. lia.
Qed.

Lemma slot_inside (p : packet) (frame : list Z) :
  len frame = UINT16_IN_FRAME ->
  0 <= curr_idx p * UINT16_IN_PACKET
  /\ curr_idx p * UINT16_IN_PACKET + UINT16_IN_PACKET
     = (curr_idx p + 1) * UINT16_IN_PACKET
  /\ (curr_idx p + 1) * UINT16_IN_PACKET <= len frame.
Proof.
  intros Hf. pose proof (curr_idx_range p) as H.
  rewrite Hf, UINT16_IN_FRAME_eq, UINT16_IN_PACKET_eq.
  rewrite PACKETS_IN_FRAME_CLIPPED_eq in H. lia.
Qed.

(** C10: in [read], the slot of a packet is always inside the frame
    buffer: the index is in 0..359, the last slot ends at 360 * 728 =
    262080 <= 262144, so a payload of exactly 728 words is copied without
    an exception, and an exception of the slot write means that the
    payload does not have 728 words. *)
Theorem slot_write_in_bounds (p : packet) (frame : list Z) :
  len frame = UINT16_IN_FRAME ->
  0 <= curr_idx p < 360
  /\ (curr_idx p + 1) * UINT16_IN_PACKET <= 360 * 728
  /\ 360 * 728 = 262080
  /\ 262080 <= len frame
  /\ len frame = 262144
  /\ (len (packet_data p) = 728 ->
      set_slice frame (curr_idx p * UINT16_IN_PACKET)
                ((curr_idx p + 1) * UINT16_IN_PACKET) (packet_data p)
      = Ok (firstn (Z.to_nat (curr_idx p * UINT16_IN_PACKET)) frame
            ++ packet_data p
            ++ skipn (Z.to_nat ((curr_idx p + 1) * UINT16_IN_PACKET)) frame))
  /\ (forall e,
        set_slice frame (curr_idx p * UINT16_IN_PACKET)
                  ((curr_idx p + 1) * UINT16_IN_PACKET) (packet_data p)
        = Raise e ->
        len (packet_data p) <> 728).
Proof.
  intros Hf.
  pose proof (curr_idx_range p) as Hidx.
  rewrite PACKETS_IN_FRAME_CLIPPED_eq in Hidx.
  destruct (slot_inside p frame Hf) as (H0 & Heq & Hle).
  assert (Hok : len (packet_data p) = 728 ->
      set_slice frame (curr_idx p * UINT16_IN_PACKET)
                ((curr_idx p + 1) * UINT16_IN_PACKET) (packet_data p)
      = Ok (firstn (Z.to_nat (curr_idx p * UINT16_IN_PACKET)) frame
            ++ packet_data p
            ++ skipn (Z.to_nat ((curr_idx p + 1) * UINT16_IN_PACKET)) frame)).
  { intros Hp. rewrite <- Heq.
    rewrite <- UINT16_IN_PACKET_eq in Hp. rewrite <- Hp.
    apply set_slice_exact; lia. }
  rewrite Hf, UINT16_IN_FRAME_eq, UINT16_IN_PACKET_eq in *.
  repeat split; try lia; try exact Hok.
  intros e He Hp. rewrite (Hok Hp) in He. discriminate He.
Qed.

Lemma slot_write_in_bounds_witness :
  let p := {| packet_num := -5; byte_count := 1456;
              packet_data := repeat 3 (Z.to_nat 728) |} in
  0 <= curr_idx p < 360
  /\ (curr_idx p + 1) * UINT16_IN_PACKET <= 360 * 728
  /\ 360 * 728 = 262080
  /\ 262080 <= len zero_frame
  /\ len zero_frame = 262144
  /\ (len (packet_data p) = 728 ->
      set_slice zero_frame (curr_idx p * UINT16_IN_PACKET)
                ((curr_idx p + 1) * UINT16_IN_PACKET) (packet_data p)
      = Ok (firstn (Z.to_nat (curr_idx p * UINT16_IN_PACKET)) zero_frame
            ++ packet_data p
            ++ skipn (Z.to_nat ((curr_idx p + 1) * UINT16_IN_PACKET)) zero_frame))
  /\ (forall e,
        set_slice zero_frame (curr_idx p * UINT16_IN_PACKET)
                  ((curr_idx p + 1) * UINT16_IN_PACKET) (packet_data p)
        = Raise e ->
        len (packet_data p) <> 728).
Proof.
  intro p. apply (slot_write_in_bounds p zero_frame).
  vm_compute. reflexivity.
Defined.

(** ** [read_frames] *)

(** The packet at the end of the batch: the split point is the result of
    a true division, a float, and slicing with it raises [TypeError]
    before anything is stored or returned. *)
Lemma read_frames_body_boundary (leftover : list Z) (packets_left : Q)
    (data_end_byte : Z) (st : list Z * Z) (p : packet) :
  data_end_byte <= byte_count p ->
  read_frames_body leftover packets_left data_end_byte st p = Raise TypeError.
Proof.
  intros H. unfold read_frames_body. destruct st as [frame packets_read].
  replace (data_end_byte <=? byte_count p) with true
    by (symmetry; apply Z.leb_le; exact H).
  reflexivity.
Qed.

Lemma read_frames_body_no_return (leftover : list Z) (packets_left : Q)
    (data_end_byte : Z) (st : list Z * Z) (p : packet) (r : frames_read) :
  read_frames_body leftover packets_left data_end_byte st p <> Ok (inr r).
Proof.
  destruct (Z.le_gt_cases data_end_byte (byte_count p)) as [H|H].
  - rewrite read_frames_body_boundary by exact H. discriminate.
  - unfold read_frames_body. destruct st as [frame packets_read].
    replace (data_end_byte <=? byte_count p) with false
      by (symmetry; apply Z.leb_gt; exact H).
    destruct (set_item frame (packet_num p - 1) (packet_data p)); discriminate.
Qed.

(** A loop whose body never leaves through a result ends with an
    exception: at the latest the timeout of the socket. *)
Lemma while_True_no_exit {S R : Type} (body : S -> packet -> result (S + R)) :
  (forall s p r, body s p <> Ok (inr r)) ->
  forall sock s, exists e, while_True body s sock = Raise e.
Proof.
  intros Hbody. induction sock as [|d rest IH]; intros s; cbn [while_True].
  - eexists. reflexivity.
  - destruct (decode (recvfrom d)) as [p|e]; [|eexists; reflexivity].
    destruct (body s p) as [[s'|r]|e] eqn:Eb.
    + apply IH.
    + exfalso. apply (Hbody s p r). exact Eb.
    + eexists. reflexivity.
Qed.

(** C3: the code does not split the packet that reaches the end offset.
    Whenever the loop of [read_frames] receives a packet whose byte
    counter is at or past [data_end_byte], the loop ends with
    [TypeError]: nothing is stored in the batch and no leftover is
    returned. *)
Theorem read_frames_boundary_raises (leftover : list Z) (packets_left : Q)
    (data_end_byte : Z) (st : list Z * Z) (d : datagram) (p : packet)
    (rest : socket) :
  decode (recvfrom d) = Ok p ->
  data_end_byte <= byte_count p ->
  while_True (read_frames_body leftover packets_left data_end_byte) st (d :: rest)
  = Raise TypeError.
Proof.
  intros Hd Hb. cbn [while_True]. rewrite Hd.
  rewrite read_frames_body_boundary by exact Hb. reflexivity.
Qed.

Lemma read_frames_boundary_raises_witness :
  while_True (read_frames_body [] (1 # 1) 522832) ([0; 0], 1)
             (encode_packet {| packet_num := 361; byte_count := 524160;
                               packet_data := [5; 6] |} :: [])
  = Raise TypeError.
Proof.
  apply (read_frames_boundary_raises [] (1 # 1) 522832 ([0; 0], 1) _
           {| packet_num := 361; byte_count := 524160; packet_data := [5; 6] |}).
  - vm_compute. reflexivity.
  - vm_compute. discriminate.
Defined.

(** The whole of [read_frames] on a stream whose second packet is the
    start of the next frame. *)
Example read_frames_boundary_pair :
  read_frames [] 1 boundary_pair = Raise TypeError.
Proof. vm_compute. reflexivity. Qed.

(** C4: [read_frames] never returns.  Its only [return] comes after the
    slice by a float, so every call ends with an exception, whatever the
    leftover, the number of frames and the stream: neither one call for
    two frames nor two calls for one frame produce frames to compare. *)
Theorem read_frames_never_returns (leftover : list Z) (num_frames : Z)
    (sock : socket) :
  exists e, read_frames leftover num_frames sock = Raise e.
Proof.
  unfold read_frames.
  destruct (np_zeros _) as [frame|e]; [|eexists; reflexivity].
  cbn [bind].
  destruct (_read_data_packet sock) as [[p sock']|e]; [|eexists; reflexivity].
  cbn [bind].
  destruct (set_slice frame 0 UINT16_IN_PACKET (packet_data p)) as [frame'|e];
    [|eexists; reflexivity].
  cbn [bind].
  match goal with |- context [while_True ?body ?s0 ?sk] =>
    destruct (while_True_no_exit body
                (fun st q r => read_frames_body_no_return _ _ _ st q r) sk s0)
      as [e He]; rewrite He
  end.
  eexists. reflexivity.
Qed.

(** On a continuous stream without loss the second packet already ends
    the call: an array of 728 words is assigned to one element. *)
Example read_frames_continuous_stream (rest : socket) :
  read_frames [] 1 (synth_stream 0 2 ++ rest) = Raise ValueError
  /\ read_frames [] 2 (synth_stream 0 2 ++ rest) = Raise ValueError.
Proof. split; vm_compute; reflexivity. Qed.

(** ** Replacing a run of items *)

Lemma splice_at (lo : nat) (w A B R : list Z) :
  length A = lo -> length B = length w ->
  splice lo w (A ++ B ++ R) = A ++ w ++ R.
Proof.
  intros HA HB. unfold splice. subst lo.
  rewrite firstn_app, firstn_all, Nat.sub_diag. cbn [firstn].
  rewrite app_nil_r. f_equal. f_equal.
  rewrite skipn_app, skipn_all2 by lia.
  replace (length A + length w - length A)%nat with (length B) by lia.
  rewrite skipn_app, skipn_all, Nat.sub_diag. reflexivity.
Qed.

Lemma split_at (l : list Z) (a b : nat) :
  (a + b <= length l)%nat ->
  exists A B R, l = A ++ B ++ R /\ length A = a /\ length B = b.
Proof.
  intros H.
  exists (firstn a l), (firstn b (skipn a l)), (skipn b (skipn a l)).
  rewrite !firstn_skipn.
  rewrite !length_firstn, length_skipn. repeat split; lia.
Qed.

Lemma length_splice (lo : nat) (w l : list Z) :
  (lo + length w <= length l)%nat -> length (splice lo w l) = length l.
Proof.
  intros H. destruct (split_at l lo (length w) H) as (A & B & R & -> & HA & HB).
  rewrite splice_at by assumption.
  rewrite !length_app. lia.
Qed.

(** Two replacements that do not overlap commute. *)
Lemma splice_comm_lt (lo1 lo2 : nat) (w1 w2 l : list Z) :
  (lo1 + length w1 <= lo2)%nat -> (lo2 + length w2 <= length l)%nat ->
  splice lo1 w1 (splice lo2 w2 l) = splice lo2 w2 (splice lo1 w1 l).
Proof.
  intros H1 H2.
  destruct (split_at l lo1 (length w1)) as (A & B1 & R & -> & HA & HB1); [lia|].
  rewrite !length_app in H2.
  destruct (split_at R (lo2 - lo1 - length w1) (length w2))
    as (C & B2 & D & -> & HC & HB2); [lia|].
  rewrite (splice_at lo1 w1 A B1) by assumption.
  replace (A ++ B1 ++ C ++ B2 ++ D) with ((A ++ B1 ++ C) ++ B2 ++ D)
    by (now rewrite <- !app_assoc).
  rewrite (splice_at lo2 w2 (A ++ B1 ++ C) B2)
    by (rewrite ?length_app; lia).
  replace ((A ++ B1 ++ C) ++ w2 ++ D) with (A ++ B1 ++ C ++ w2 ++ D)
    by (now rewrite <- !app_assoc).
  rewrite (splice_at lo1 w1 A B1) by assumption.
  replace (A ++ w1 ++ C ++ B2 ++ D) with ((A ++ w1 ++ C) ++ B2 ++ D)
    by (now rewrite <- !app_assoc).
  rewrite (splice_at lo2 w2 (A ++ w1 ++ C) B2)
    by (rewrite ?length_app; lia).
  now rewrite <- !app_assoc.
Qed.

Lemma splice_comm (lo1 lo2 : nat) (w1 w2 l : list Z) :
  (lo1 + length w1 <= lo2)%nat \/ (lo2 + length w2 <= lo1)%nat ->
  (lo1 + length w1 <= length l)%nat -> (lo2 + length w2 <= length l)%nat ->
  splice lo1 w1 (splice lo2 w2 l) = splice lo2 w2 (splice lo1 w1 l).
Proof.
  intros [H|H] H1 H2.
  - apply splice_comm_lt; assumption.
  - symmetry. apply splice_comm_lt; assumption.
Qed.

(** ** The slot write of [read] *)

Lemma broadcast_to_length (v w : list Z) (m : Z) :
  0 <= m -> broadcast_to v m = Ok w -> len w = m.
Proof.
  intros Hm. unfold broadcast_to.
  destruct (Z.eqb_spec (len v) m) as [E|E].
  - intros H. injection H as <-. exact E.
  - destruct (len v =? 1); [|discriminate].
    intros H. injection H as <-. apply len_repeat. exact Hm.
Qed.

Lemma broadcast_to_same (v : list Z) (m : Z) :
  len v = m -> broadcast_to v m = Ok v.
Proof. intros <-. unfold broadcast_to. rewrite Z.eqb_refl. reflexivity. Qed.

(** The slot write replaces the 728 words of the slot, or, when the
    payload cannot be broadcast to 728 words, does nothing. *)
Lemma write_slot_splice (frame : list Z) (p : packet) :
  len frame = UINT16_IN_FRAME ->
  write_slot frame p
  = match broadcast_to (packet_data p) UINT16_IN_PACKET with
    | Ok w => splice (Z.to_nat (curr_idx p * UINT16_IN_PACKET)) w frame
    | Raise _ => frame
    end.
Proof.
  intros Hf. unfold write_slot.
  destruct (slot_inside p frame Hf) as (H0 & Heq & Hle).
  rewrite UINT16_IN_PACKET_eq in *.
  rewrite set_slice_inside by lia.
  replace ((curr_idx p + 1) * 728 - curr_idx p * 728) with 728 by lia.
  destruct (broadcast_to (packet_data p) 728) as [w|e] eqn:Ew; [|reflexivity].
  cbn [bind]. unfold splice.
  apply broadcast_to_length in Ew; [|lia].
  replace (Z.to_nat ((curr_idx p + 1) * 728))
    with (Z.to_nat (curr_idx p * 728) + length w)%nat; [reflexivity|].
  unfold len in Ew. lia.
Qed.

Lemma write_slot_length (frame : list Z) (p : packet) :
  len frame = UINT16_IN_FRAME -> len (write_slot frame p) = UINT16_IN_FRAME.
Proof.
  intros Hf. rewrite write_slot_splice by exact Hf.
  destruct (broadcast_to (packet_data p) UINT16_IN_PACKET) as [w|e] eqn:Ew;
    [|exact Hf].
  apply broadcast_to_length in Ew; [|rewrite UINT16_IN_PACKET_eq; lia].
  destruct (slot_inside p frame Hf) as (H0 & Heq & Hle).
  unfold len in *. rewrite length_splice; lia.
Qed.

(** Writes to different slots commute. *)
Lemma write_slot_comm (frame : list Z) (p q : packet) :
  len frame = UINT16_IN_FRAME ->
  curr_idx p <> curr_idx q ->
  write_slot (write_slot frame p) q = write_slot (write_slot frame q) p.
Proof.
  intros Hf Hpq.
  rewrite (write_slot_splice (write_slot frame p) q)
    by (apply write_slot_length; exact Hf).
  rewrite (write_slot_splice (write_slot frame q) p)
    by (apply write_slot_length; exact Hf).
  rewrite !write_slot_splice by exact Hf.
  destruct (broadcast_to (packet_data p) UINT16_IN_PACKET) as [w|e] eqn:Ew;
    destruct (broadcast_to (packet_data q) UINT16_IN_PACKET) as [u|e'] eqn:Eu;
    try reflexivity.
  apply broadcast_to_length in Ew; [|rewrite UINT16_IN_PACKET_eq; lia].
  apply broadcast_to_length in Eu; [|rewrite UINT16_IN_PACKET_eq; lia].
  destruct (slot_inside p frame Hf) as (Hp0 & Hpe & Hpl).
  destruct (slot_inside q frame Hf) as (Hq0 & Hqe & Hql).
  unfold len in *. rewrite UINT16_IN_PACKET_eq in *.
  symmetry. apply splice_comm; lia.
Qed.

(** ** The two loops of [read], one packet at a time *)

Lemma wait_step_skip (frame : list Z) (d : datagram) (p : packet) (rest : socket) :
  decoded d = Ok p ->
  byte_count p mod BYTES_IN_FRAME_CLIPPED <> 0 ->
  while_True read_wait_body frame (d :: rest)
  = while_True read_wait_body frame rest.
Proof.
  unfold decoded. intros Hd Hb. cbn [while_True]. rewrite Hd.
  unfold read_wait_body.
  destruct (Z.eqb_spec (byte_count p mod BYTES_IN_FRAME_CLIPPED) 0); [lia|].
  reflexivity.
Qed.

Lemma wait_step_start (frame : list Z) (d : datagram) (p : packet) (rest : socket) :
  decoded d = Ok p ->
  byte_count p mod BYTES_IN_FRAME_CLIPPED = 0 ->
  while_True read_wait_body frame (d :: rest)
  = (frame' <- set_slice frame 0 UINT16_IN_PACKET (packet_data p) ;;
     Ok ((frame', 1), rest)).
Proof.
  unfold decoded. intros Hd Hb. cbn [while_True]. rewrite Hd.
  unfold read_wait_body. rewrite Hb. cbn [Z.eqb].
  destruct (set_slice frame 0 UINT16_IN_PACKET (packet_data p)); reflexivity.
Qed.

Lemma rest_step_mid (frame : list Z) (n : Z) (d : datagram) (p : packet)
    (rest : socket) :
  decoded d = Ok p ->
  byte_count p mod BYTES_IN_FRAME_CLIPPED <> 0 ->
  while_True read_rest_body (frame, n) (d :: rest)
  = while_True read_rest_body (write_slot frame p, count_packet n) rest.
Proof.
  unfold decoded. intros Hd Hb. cbn [while_True]. rewrite Hd.
  unfold read_rest_body.
  destruct (Z.eqb_spec (byte_count p mod BYTES_IN_FRAME_CLIPPED) 0); [lia|].
  reflexivity.
Qed.

Lemma rest_step_end (frame : list Z) (n : Z) (d : datagram) (p : packet)
    (rest : socket) :
  decoded d = Ok p ->
  byte_count p mod BYTES_IN_FRAME_CLIPPED = 0 ->
  while_True read_rest_body (frame, n) (d :: rest)
  = Ok ({| ret_frame := frame;
           lost_packets := PACKETS_IN_FRAME_CLIPPED - (n + 1) |}, rest).
Proof.
  unfold decoded. intros Hd Hb. cbn [while_True]. rewrite Hd.
  unfold read_rest_body. rewrite Hb. reflexivity.
Qed.

(** ** Streams without loss *)

Lemma in_order_at_spec (k : Z) (d : datagram) :
  in_order_at k d = true ->
  exists p, decoded d = Ok p
    /\ packet_num p = k + 1
    /\ byte_count p = k * BYTES_IN_PACKET
    /\ len (packet_data p) = UINT16_IN_PACKET
    /\ payload d = packet_data p.
Proof.
  unfold in_order_at, payload. destruct (decoded d) as [p|e]; [|discriminate].
  intros H. apply andb_prop in H as [H H3]. apply andb_prop in H as [H1 H2].
  exists p. repeat split; try (apply Z.eqb_eq; assumption).
Qed.

Lemma in_order_from_app (k : Z) (ds1 ds2 : socket) :
  in_order_from k (ds1 ++ ds2)
  = in_order_from k ds1 && in_order_from (k + len ds1) ds2.
Proof.
  revert k. induction ds1 as [|d ds1 IH]; intros k.
  - cbn [app in_order_from andb]. f_equal. unfold len. cbn [length]. lia.
  - cbn [app in_order_from]. rewrite IH, andb_assoc. do 2 f_equal.
    unfold len. cbn [length]. lia.
Qed.

(** The byte counter of packet [k] is frame-aligned exactly when [k] is a
    multiple of the 360 packets of a clipped frame. *)
Lemma aligned_index (k : Z) :
  (k * BYTES_IN_PACKET) mod BYTES_IN_FRAME_CLIPPED = (k mod 360) * 1456.
Proof.
  rewrite BYTES_IN_FRAME_CLIPPED_eq. unfold BYTES_IN_PACKET.
  change 524160 with (360 * 1456).
  apply Z.mul_mod_distr_r; lia.
Qed.

Lemma index_in_frame (m j : Z) : 0 <= j < 360 -> (360 * m + j) mod 360 = j.
Proof.
  intros H. rewrite Z.add_comm, Z.mul_comm, Z.mod_add by lia.
  apply Z.mod_small. exact H.
Qed.

Lemma zeros_app (a b : Z) : 0 <= a -> 0 <= b -> zeros (a + b) = zeros a ++ zeros b.
Proof.
  intros Ha Hb. unfold zeros. rewrite Z2Nat.inj_add by assumption.
  apply repeat_app.
Qed.

Lemma len_zeros (n : Z) : 0 <= n -> len (zeros n) = n.
Proof. apply len_repeat. Qed.

(** Before the frame start every packet is skipped. *)
Lemma wait_skips (m : Z) (frame : list Z) (tail : socket) :
  forall (pre : socket) (k : Z),
    360 * (m - 1) < k -> k + len pre <= 360 * m ->
    in_order_from k pre = true ->
    while_True read_wait_body frame (pre ++ tail)
    = while_True read_wait_body frame tail.
Proof.
  induction pre as [|d pre IH]; intros k Hk Hlen Hin; [reflexivity|].
  cbn [in_order_from] in Hin. apply andb_prop in Hin as [Hd Hin].
  apply in_order_at_spec in Hd as (p & Hp & _ & Hbc & _ & _).
  unfold len in Hlen. cbn [length] in Hlen.
  cbn [app]. rewrite (wait_step_skip frame d p) by
    (try exact Hp; rewrite Hbc, aligned_index;
     pose proof (Z.mod_pos_bound k 360 ltac:(lia));
     pose proof (Z.div_mod k 360 ltac:(lia)); lia).
  apply (IH (k + 1)); [lia | unfold len; lia | exact Hin].
Qed.

(** Inside the frame every packet fills the next slot. *)
Lemma rest_in_order (m : Z) (tail : socket) :
  forall (body : socket) (j : Z) (P : list Z),
    1 <= j -> j + len body <= 360 ->
    len P = 728 * j ->
    in_order_from (360 * m + j) body = true ->
    while_True read_rest_body (P ++ zeros (UINT16_IN_FRAME - 728 * j), j)
               (body ++ tail)
    = while_True read_rest_body
        ((P ++ flat_map payload body)
           ++ zeros (UINT16_IN_FRAME - 728 * (j + len body)),
         j + len body) tail.
Proof.
  induction body as [|d body IH]; intros j P Hj Hlen HP Hin.
  - cbn [app flat_map]. rewrite app_nil_r.
    unfold len. cbn [length]. rewrite Z.add_0_r. reflexivity.
  - cbn [in_order_from] in Hin. apply andb_prop in Hin as [Hd Hin].
    apply in_order_at_spec in Hd as (p & Hp & Hnum & Hbc & Hpl & Hpay).
    assert (Hl : len (d :: body) = 1 + len body)
      by (unfold len; cbn [length]; lia).
    rewrite Hl in *. pose proof (len_nonneg body) as Hnn.
    assert (Hidx : curr_idx p = j).
    { unfold curr_idx. rewrite Hnum, PACKETS_IN_FRAME_CLIPPED_eq.
      replace (360 * m + j + 1 - 1) with (360 * m + j) by lia.
      apply index_in_frame. lia. }
    cbn [app]. rewrite (rest_step_mid _ j d p) by
      (try exact Hp; rewrite Hbc, aligned_index, index_in_frame; lia).
    assert (Hw : write_slot (P ++ zeros (UINT16_IN_FRAME - 728 * j)) p
                 = (P ++ packet_data p)
                     ++ zeros (UINT16_IN_FRAME - 728 * (j + 1))).
    { rewrite UINT16_IN_FRAME_eq, UINT16_IN_PACKET_eq in *.
      rewrite write_slot_splice
        by (rewrite len_app, len_zeros, HP, UINT16_IN_FRAME_eq; lia).
      rewrite UINT16_IN_PACKET_eq, (broadcast_to_same _ _ Hpl), Hidx.
      replace (262144 - 728 * j) with (728 + (262144 - 728 * (j + 1))) by lia.
      rewrite zeros_app by lia.
      rewrite splice_at.
      - now rewrite <- app_assoc.
      - unfold len in HP. lia.
      - pose proof (len_zeros 728 ltac:(lia)) as Hz. unfold len in Hz, Hpl. lia. }
    rewrite Hw.
    assert (Hc : count_packet j = j + 1).
    { unfold count_packet. rewrite PACKETS_IN_FRAME_CLIPPED_eq.
      destruct (Z.ltb_spec 360 (j + 1)); lia. }
    rewrite Hc.
    rewrite (IH (j + 1) (P ++ packet_data p)); try lia.
    + cbn [flat_map]. rewrite Hpay, <- !app_assoc.
      replace (j + 1 + len body) with (j + (1 + len body)) by lia.
      reflexivity.
    + rewrite len_app, HP, Hpl, UINT16_IN_PACKET_eq. lia.
    + replace (360 * m + (j + 1)) with (360 * m + j + 1) by lia. exact Hin.
Qed.

Lemma frame_start_spec (d : datagram) :
  frame_start d = true ->
  exists p, decoded d = Ok p /\ byte_count p mod BYTES_IN_FRAME_CLIPPED = 0.
Proof.
  unfold frame_start. destruct (decoded d) as [p|e]; [|discriminate].
  intros H. exists p. split; [reflexivity|]. apply Z.eqb_eq. exact H.
Qed.

Lemma in_order_at_frame_start (k : Z) (d : datagram) :
  in_order_at k d = true -> k mod 360 = 0 -> frame_start d = true.
Proof.
  intros Hd Hk. apply in_order_at_spec in Hd as (p & Hp & _ & Hbc & _ & _).
  unfold frame_start. rewrite Hp, Hbc, aligned_index, Hk. reflexivity.
Qed.

Lemma len_flat_map_payload (ds : socket) :
  forall k, in_order_from k ds = true ->
  len (flat_map payload ds) = 728 * len ds.
Proof.
  induction ds as [|d ds IH]; intros k Hin; [reflexivity|].
  cbn [in_order_from] in Hin. apply andb_prop in Hin as [Hd Hin].
  apply in_order_at_spec in Hd as (p & _ & _ & _ & Hpl & Hpay).
  cbn [flat_map]. rewrite len_app, (IH _ Hin), Hpay, Hpl, UINT16_IN_PACKET_eq.
  unfold len. cbn [length]. lia.
Qed.

(** The first packet of the frame goes to the head of the zeroed
    buffer. *)
Lemma first_packet_write (v : list Z) :
  len v = 728 ->
  set_slice zero_frame 0 UINT16_IN_PACKET v
  = Ok (v ++ zeros (UINT16_IN_FRAME - 728)).
Proof.
  intros Hv. rewrite UINT16_IN_PACKET_eq.
  rewrite set_slice_inside by (rewrite ?len_zero_frame, ?UINT16_IN_FRAME_eq; lia).
  rewrite Z.sub_0_r, (broadcast_to_same _ _ Hv). cbn [bind].
  apply (f_equal Ok).
  change (firstn (Z.to_nat 0) zero_frame) with (@nil Z).
  rewrite app_nil_l. apply (f_equal (app v)).
  unfold zero_frame.
  replace UINT16_IN_FRAME with (728 + (UINT16_IN_FRAME - 728)) at 1 by lia.
  pose proof UINT16_IN_FRAME_eq as HN.
  pose proof (len_zeros 728 ltac:(lia)) as Hz. unfold len in Hz.
  rewrite zeros_app by lia.
  rewrite skipn_app, skipn_all2 by lia.
  replace (Z.to_nat 728 - length (zeros 728))%nat with 0%nat by lia.
  reflexivity.
Qed.

(** A run of [n] packets without loss that begins at a frame start and is
    cut by the next frame-start packet: [read] returns the payloads in
    order, then zeros up to the 262144 words of the buffer. *)
Lemma read_in_order_run (m k0 : Z) (pre frame : socket) (dB : datagram)
    (rest : socket) :
  360 * (m - 1) < k0 <= 360 * m ->
  len pre = 360 * m - k0 ->
  1 <= len frame <= 360 ->
  in_order_from k0 (pre ++ frame) = true ->
  frame_start dB = true ->
  read (pre ++ frame ++ dB :: rest)
  = Ok {| ret_frame := flat_map payload frame
                         ++ zeros (UINT16_IN_FRAME - 728 * len frame);
          lost_packets := 360 - (len frame + 1) |}.
Proof.
  intros Hk Hpre Hframe Hin HB.
  rewrite in_order_from_app in Hin. apply andb_prop in Hin as [Hin_pre Hin].
  replace (k0 + len pre) with (360 * m) in Hin by lia.
  destruct frame as [|d0 body]; [unfold len in Hframe; cbn [length] in Hframe; lia|].
  assert (Hl : len (d0 :: body) = 1 + len body)
    by (unfold len; cbn [length]; lia).
  rewrite Hl in *. pose proof (len_nonneg body) as Hnn.
  cbn [in_order_from] in Hin. apply andb_prop in Hin as [Hd0 Hin].
  apply in_order_at_spec in Hd0 as (p0 & Hp0 & _ & Hbc0 & Hpl0 & Hpay0).
  apply frame_start_spec in HB as (pB & HpB & HalB).
  rewrite read_unfold.
  rewrite (wait_skips m zero_frame _ pre k0) by (lia || exact Hin_pre).
  cbn [app].
  rewrite (wait_step_start zero_frame d0 p0) by
    (try exact Hp0; rewrite Hbc0, aligned_index;
     replace (360 * m) with (360 * m + 0) by lia;
     rewrite index_in_frame; lia).
  rewrite UINT16_IN_PACKET_eq in Hpl0.
  rewrite (first_packet_write _ Hpl0). cbn [bind].
  replace (UINT16_IN_FRAME - 728) with (UINT16_IN_FRAME - 728 * 1) by lia.
  rewrite (rest_in_order m (dB :: rest) body 1 (packet_data p0))
    by (lia || (replace (360 * m + 1) with (360 * m + 1) by lia; exact Hin)).
  rewrite (rest_step_end _ _ dB pB) by assumption.
  cbn [bind flat_map]. rewrite Hpay0, PACKETS_IN_FRAME_CLIPPED_eq.
  reflexivity.
Qed.

(** C1, amended: on a stream without loss (sequence numbers and byte
    counters in step, 728 words a packet), whatever the packets before
    the frame start, [read] returns a buffer of 262144 words: the 360
    payloads of the frame in order, 262080 words, then 64 words that are
    still zero. *)
Theorem read_no_loss (m k0 : Z) (pre frame : socket) (dB : datagram)
    (rest : socket) :
  360 * (m - 1) < k0 <= 360 * m ->
  len pre = 360 * m - k0 ->
  len frame = 360 ->
  in_order_from k0 (pre ++ frame ++ [dB]) = true ->
  exists r,
    read (pre ++ frame ++ dB :: rest) = Ok r
    /\ ret_frame r = flat_map payload frame ++ zeros 64
    /\ len (flat_map payload frame) = 262080
    /\ len (ret_frame r) = UINT16_IN_FRAME.
Proof.
  intros Hk Hpre Hframe Hin.
  rewrite app_assoc, in_order_from_app in Hin.
  apply andb_prop in Hin as [Hin HB].
  cbn [in_order_from] in HB. rewrite andb_true_r in HB.
  assert (HB' : frame_start dB = true).
  { apply (in_order_at_frame_start _ _ HB).
    rewrite len_app, Hpre, Hframe.
    replace (k0 + (360 * m - k0 + 360)) with (0 + (m + 1) * 360) by lia.
    apply Z.mod_add. lia. }
  assert (Hpay : len (flat_map payload frame) = 262080).
  { rewrite in_order_from_app in Hin. apply andb_prop in Hin as [_ Hin].
    rewrite (len_flat_map_payload _ _ Hin), Hframe. reflexivity. }
  eexists. split; [|split; [|split]].
  - apply (read_in_order_run m k0); try eassumption. lia.
  - cbn [ret_frame]. rewrite Hframe, UINT16_IN_FRAME_eq. reflexivity.
  - exact Hpay.
  - cbn [ret_frame]. rewrite len_app, Hpay, Hframe, len_zeros, UINT16_IN_FRAME_eq;
      rewrite ?UINT16_IN_FRAME_eq; lia.
Qed.

Lemma read_no_loss_witness :
  exists r,
    read ([] ++ one_frame ++ next_start :: []) = Ok r
    /\ ret_frame r = flat_map payload one_frame ++ zeros 64
    /\ len (flat_map payload one_frame) = 262080
    /\ len (ret_frame r) = UINT16_IN_FRAME.
Proof.
  apply (read_no_loss 0 0 [] one_frame next_start []).
  - lia.
  - reflexivity.
  - vm_compute. reflexivity.
  - vm_compute. reflexivity.
Defined.

(** C1, as stated, fails on the stream [one_frame ++ [next_start]], which
    has no loss: the returned buffer is longer than the concatenation of
    the 360 payloads, and the loss counter is not 0. *)
Lemma read_no_loss_not_concat_and_zero :
  in_order_from 0 (one_frame ++ [next_start]) = true
  /\ exists r,
       read (one_frame ++ [next_start]) = Ok r
       /\ ret_frame r <> flat_map payload one_frame
       /\ lost_packets r <> 0.
Proof.
  assert (Hin : in_order_from 0 (one_frame ++ [next_start]) = true)
    by (vm_compute; reflexivity).
  split; [exact Hin|].
  assert (Hlen : len one_frame = 360) by (vm_compute; reflexivity).
  eexists. split; [|split].
  - apply (read_in_order_run 0 0 [] one_frame next_start []).
    + lia.
    + reflexivity.
    + rewrite Hlen. lia.
    + rewrite in_order_from_app in Hin. apply andb_prop in Hin as [Hin _].
      exact Hin.
    + vm_compute. reflexivity.
  - cbn [ret_frame]. intros E. apply (f_equal len) in E.
    rewrite len_app, len_zeros in E by (rewrite Hlen, UINT16_IN_FRAME_eq; lia).
    rewrite Hlen, UINT16_IN_FRAME_eq in E. lia.
  - cbn [lost_packets]. rewrite Hlen. lia.
Qed.

(** ** Delivery order inside a frame *)

Lemma inside_frame_spec (d : datagram) :
  inside_frame d = true ->
  decoded d = Ok (packet_of d)
  /\ byte_count (packet_of d) mod BYTES_IN_FRAME_CLIPPED <> 0.
Proof.
  unfold inside_frame, packet_of. destruct (decoded d) as [p|e]; [|discriminate].
  intros H. split; [reflexivity|].
  apply negb_true_iff, Z.eqb_neq in H. exact H.
Qed.

(** The slot writes of a run of packets, in the order of delivery. *)
Lemma fold_write_length (ds : socket) :
  forall frame, len frame = UINT16_IN_FRAME ->
  len (fold_left (fun f d => write_slot f (packet_of d)) ds frame)
  = UINT16_IN_FRAME.
Proof.
  induction ds as [|d ds IH]; intros frame Hf; [exact Hf|].
  cbn [fold_left]. apply IH. apply write_slot_length. exact Hf.
Qed.

Lemma fold_write_perm (ds ds' : socket) :
  Permutation ds ds' ->
  forall frame, len frame = UINT16_IN_FRAME ->
  NoDup (map slot_of ds) ->
  fold_left (fun f d => write_slot f (packet_of d)) ds frame
  = fold_left (fun f d => write_slot f (packet_of d)) ds' frame.
Proof.
  induction 1 as [|x l l' Hp IH|x y l|l l' l'' Hp1 IH1 Hp2 IH2];
    intros frame Hf Hnd.
  - reflexivity.
  - cbn [fold_left]. apply IH.
    + apply write_slot_length. exact Hf.
    + cbn [map] in Hnd. inversion Hnd. assumption.
  - cbn [fold_left]. f_equal. apply write_slot_comm; [exact Hf|].
    cbn [map] in Hnd. inversion Hnd as [|? ? Hy _]. subst.
    intros E. apply Hy. left. unfold slot_of. symmetry. exact E.
  - rewrite (IH1 frame Hf Hnd). apply (IH2 frame Hf).
    apply (Permutation_NoDup (Permutation_map slot_of Hp1)). exact Hnd.
Qed.

Lemma rest_loop_inside (tail : socket) (ds : socket) :
  forallb inside_frame ds = true ->
  forall frame n,
  while_True read_rest_body (frame, n) (ds ++ tail)
  = while_True read_rest_body
      (fold_left (fun f d => write_slot f (packet_of d)) ds frame,
       Nat.iter (length ds) count_packet n) tail.
Proof.
  induction ds as [|d ds IH]; intros Hin frame n; [reflexivity|].
  cbn [forallb] in Hin. apply andb_prop in Hin as [Hd Hin].
  apply inside_frame_spec in Hd as [Hdec Hbc].
  cbn [app]. rewrite (rest_step_mid frame n d _ _ Hdec Hbc).
  rewrite (IH Hin). cbn [fold_left length].
  rewrite Nat.iter_succ_r. reflexivity.
Qed.

Lemma wait_loop_inside (frame : list Z) (tail : socket) (ds : socket) :
  forallb inside_frame ds = true ->
  while_True read_wait_body frame (ds ++ tail)
  = while_True read_wait_body frame tail.
Proof.
  induction ds as [|d ds IH]; intros Hin; [reflexivity|].
  cbn [forallb] in Hin. apply andb_prop in Hin as [Hd Hin].
  apply inside_frame_spec in Hd as [Hdec Hbc].
  cbn [app]. rewrite (wait_step_skip frame d _ _ Hdec Hbc).
  apply IH. exact Hin.
Qed.

Lemma set_slice_length (a v a' : list Z) (lo hi : Z) :
  0 <= lo <= hi -> hi <= len a ->
  set_slice a lo hi v = Ok a' -> len a' = len a.
Proof.
  intros Hlo Hhi. rewrite set_slice_inside by assumption.
  destruct (broadcast_to v (hi - lo)) as [w|e] eqn:Ew; [|discriminate].
  cbn [bind]. intros H. injection H as <-.
  apply broadcast_to_length in Ew; [|lia].
  unfold len in *. rewrite !length_app, length_firstn, length_skipn. lia.
Qed.

Section PermutedRun.

Variables (mid mid' after : socket).
Hypothesis Hperm : Permutation mid mid'.
Hypothesis Hinside : forallb inside_frame mid = true.
Hypothesis Hslots : NoDup (map slot_of mid).

Lemma inside_permuted : forallb inside_frame mid' = true.
Proof.
  apply forallb_forall. intros d Hd.
  apply (proj1 (forallb_forall inside_frame mid) Hinside).
  apply (Permutation_in d (Permutation_sym Hperm)). exact Hd.
Qed.

(** After the frame start: the run gives the same state in either
    order. *)
Lemma read_rest_permuted (before : socket) :
  forall frame n, len frame = UINT16_IN_FRAME ->
  read_rest (frame, n) (before ++ mid ++ after)
  = read_rest (frame, n) (before ++ mid' ++ after).
Proof.
  induction before as [|d before IH]; intros frame n Hf.
  - cbn [app]. unfold read_rest.
    rewrite (rest_loop_inside after mid Hinside).
    rewrite (rest_loop_inside after mid' inside_permuted).
    rewrite (fold_write_perm mid mid' Hperm frame Hf Hslots).
    rewrite (Permutation_length Hperm). reflexivity.
  - cbn [app]. unfold read_rest. cbn [while_True].
    destruct (decode (recvfrom d)) as [p|e]; [|reflexivity].
    unfold read_rest_body at 1 3.
    destruct (byte_count p mod BYTES_IN_FRAME_CLIPPED =? 0); [reflexivity|].
    apply IH. apply write_slot_length. exact Hf.
Qed.

(** Before the frame start. *)
Lemma read_from_permuted (before : socket) :
  forall frame, len frame = UINT16_IN_FRAME ->
  read_from frame (before ++ mid ++ after)
  = read_from frame (before ++ mid' ++ after).
Proof.
  induction before as [|d before IH]; intros frame Hf.
  - cbn [app]. unfold read_from.
    rewrite (wait_loop_inside frame after mid Hinside).
    rewrite (wait_loop_inside frame after mid' inside_permuted).
    reflexivity.
  - cbn [app]. unfold read_from. cbn [while_True].
    destruct (decode (recvfrom d)) as [p|e]; [|reflexivity].
    unfold read_wait_body at 1 3.
    destruct (byte_count p mod BYTES_IN_FRAME_CLIPPED =? 0).
    + destruct (set_slice frame 0 UINT16_IN_PACKET (packet_data p))
        as [frame'|e] eqn:Es; [|reflexivity].
      cbn [bind]. apply (read_rest_permuted before frame' 1).
      apply set_slice_length in Es.
      * rewrite Es. exact Hf.
      * rewrite UINT16_IN_PACKET_eq. lia.
      * rewrite Hf, UINT16_IN_PACKET_eq, UINT16_IN_FRAME_eq. lia.
    + apply IH. exact Hf.
Qed.

End PermutedRun.

(** A run of packets without loss that lies inside one frame: none is a
    frame start, and the slots are consecutive, so all different. *)
Lemma in_order_inside (m : Z) (body : socket) :
  forall j, 1 <= j -> j + len body <= 360 ->
  in_order_from (360 * m + j) body = true ->
  forallb inside_frame body = true
  /\ NoDup (map slot_of body)
  /\ Forall (fun s => j <= s) (map slot_of body).
Proof.
  induction body as [|d body IH]; intros j Hj Hlen Hin.
  - repeat split; constructor.
  - cbn [in_order_from] in Hin. apply andb_prop in Hin as [Hd Hin].
    apply in_order_at_spec in Hd as (p & Hp & Hnum & Hbc & _ & _).
    assert (Hl : len (d :: body) = 1 + len body)
      by (unfold len; cbn [length]; lia).
    rewrite Hl in Hlen. pose proof (len_nonneg body) as Hnn.
    replace (360 * m + j + 1) with (360 * m + (j + 1)) in Hin by lia.
    destruct (IH (j + 1) ltac:(lia) ltac:(lia) Hin) as (Hi & Hnd & Hge).
    assert (Hslot : slot_of d = j).
    { unfold slot_of, packet_of, curr_idx.
      rewrite Hp, Hnum, PACKETS_IN_FRAME_CLIPPED_eq.
      replace (360 * m + j + 1 - 1) with (360 * m + j) by lia.
      apply index_in_frame. lia. }
    split; [|split].
    + cbn [forallb]. rewrite Hi, andb_true_r.
      unfold inside_frame. rewrite Hp, Hbc, aligned_index, index_in_frame by lia.
      apply negb_true_iff, Z.eqb_neq. lia.
    + cbn [map]. constructor; [|exact Hnd].
      rewrite Hslot. intros Hin'.
      rewrite Forall_forall in Hge. specialize (Hge j Hin'). lia.
    + cbn [map]. constructor; [lia|].
      apply (Forall_impl _ (fun s (H : j + 1 <= s) => Z.le_trans _ _ _ (Z.le_succ_diag_r j) H)) in Hge.
      exact Hge.
Qed.

(** C5, amended: in any stream, take a run of packets without loss that
    lies inside one frame (after its frame-start packet, before the next
    one).  Delivering the packets of the run in another order gives the
    same result of [read]: the same buffer and the same loss counter. *)
Theorem read_permuted_inside_frame (m j : Z) (before body body' after : socket) :
  1 <= j -> j + len body <= 360 ->
  in_order_from (360 * m + j) body = true ->
  Permutation body body' ->
  read (before ++ body ++ after) = read (before ++ body' ++ after).
Proof.
  intros Hj Hlen Hin Hperm.
  destruct (in_order_inside m body j Hj Hlen Hin) as (Hi & Hnd & _).
  rewrite !read_unfold.
  apply (read_from_permuted body body' after Hperm Hi Hnd before zero_frame).
  apply len_zero_frame.
Qed.

Lemma read_permuted_inside_frame_witness :
  read ([encode_packet (synth_packet 0)]
          ++ [encode_packet (synth_packet 1); encode_packet (synth_packet 2)]
          ++ [next_start])
  = read ([encode_packet (synth_packet 0)]
            ++ [encode_packet (synth_packet 2); encode_packet (synth_packet 1)]
            ++ [next_start]).
Proof.
  apply (read_permuted_inside_frame 0 1).
  - lia.
  - vm_compute. discriminate.
  - vm_compute. reflexivity.
  - apply perm_swap.
Defined.

(** C5, as stated, fails: [frame_init ++ [frame_last; next_start]] is a
    stream without loss that [read] reassembles; delivered with its last
    two packets exchanged, the frame ends one packet early and the
    buffer differs. *)
Lemma read_not_permutation_invariant :
  in_order_from 0 (frame_init ++ [frame_last; next_start]) = true
  /\ Permutation (frame_init ++ [frame_last; next_start])
                 (frame_init ++ [next_start; frame_last])
  /\ exists r r',
       read (frame_init ++ [frame_last; next_start]) = Ok r
       /\ read (frame_init ++ [next_start; frame_last]) = Ok r'
       /\ ret_frame r <> ret_frame r'.
Proof.
  assert (Hin : in_order_from 0 (frame_init ++ [frame_last; next_start]) = true)
    by (vm_compute; reflexivity).
  split; [exact Hin|].
  split; [apply Permutation_app_head, perm_swap|].
  assert (Hlen : len frame_init = 359).
  { unfold frame_init, synth_stream, len. rewrite length_map, length_seq.
    reflexivity. }
  assert (Hinit : in_order_from 0 frame_init = true) by (vm_compute; reflexivity).
  assert (Hfull : in_order_from 0 (frame_init ++ [frame_last]) = true)
    by (vm_compute; reflexivity).
  assert (HB : frame_start next_start = true) by (vm_compute; reflexivity).
  eexists. eexists. split; [|split].
  - replace (frame_init ++ [frame_last; next_start])
      with ([] ++ (frame_init ++ [frame_last]) ++ next_start :: [])
      by (cbn [app]; rewrite <- app_assoc; reflexivity).
    apply (read_in_order_run 0 0).
    + lia.
    + reflexivity.
    + rewrite len_app, Hlen. unfold len. cbn [length]. lia.
    + exact Hfull.
    + exact HB.
  - apply (read_in_order_run 0 0 [] frame_init next_start [frame_last]).
    + lia.
    + reflexivity.
    + rewrite Hlen. lia.
    + exact Hinit.
    + exact HB.
  - cbn [ret_frame]. rewrite flat_map_app, <- app_assoc.
    intros E. apply app_inv_head in E.
    rewrite len_app, Hlen in E.
    vm_compute in E. discriminate E.
Qed.

(** * Further properties of the driver *)

(** ** The decoder: outcomes, ranges, injectivity *)

Lemma byte_of_Z_low (b : byte) (r : Z) : byte_of_Z (Z_of_byte b + 256 * r) = b.
Proof.
  unfold byte_of_Z. pose proof (Z_of_byte_range b) as Hb.
  replace ((Z_of_byte b + 256 * r) mod 256) with (Z_of_byte b).
  - unfold Z_of_byte. rewrite N2Z.id, Byte.of_to_N. reflexivity.
  - replace (Z_of_byte b + 256 * r) with (Z_of_byte b + r * 256) by lia.
    rewrite Z.mod_add by lia. symmetry. apply Z.mod_small. exact Hb.
Qed.

Lemma high_of_low (b : byte) (r : Z) : (Z_of_byte b + 256 * r) / 256 = r.
Proof.
  pose proof (Z_of_byte_range b) as Hb.
  replace (Z_of_byte b + 256 * r) with (Z_of_byte b + r * 256) by lia.
  rewrite Z.div_add by lia. rewrite Z.div_small by exact Hb. lia.
Qed.

Lemma le_uint_range (bs : list byte) :
  0 <= le_uint bs < 256 ^ Z.of_nat (length bs).
Proof.
  induction bs as [|b bs IH]; cbn [le_uint length].
  - cbn. lia.
  - pose proof (Z_of_byte_range b).
    rewrite Nat2Z.inj_succ, Z.pow_succ_r by lia. lia.
Qed.

Lemma le_bytes_le_uint (bs : list byte) :
  le_bytes (length bs) (le_uint bs) = bs.
Proof.
  induction bs as [|b bs IH]; [reflexivity|].
  cbn [length le_bytes le_uint].
  rewrite byte_of_Z_low, high_of_low, IH. reflexivity.
Qed.

(** Only the low [n] bytes of a number are written. *)
Lemma le_bytes_wrap (n : nat) :
  forall z, le_bytes n (z - 256 ^ Z.of_nat n) = le_bytes n z.
Proof.
  induction n as [|n IH]; intros z; [reflexivity|].
  cbn [le_bytes]. rewrite Nat2Z.inj_succ, Z.pow_succ_r by lia.
  f_equal.
  - unfold byte_of_Z.
    replace ((z - 256 * 256 ^ Z.of_nat n) mod 256) with (z mod 256);
      [reflexivity|].
    replace (z - 256 * 256 ^ Z.of_nat n)
      with (z + (- 256 ^ Z.of_nat n) * 256) by lia.
    rewrite Z.mod_add by lia. reflexivity.
  - replace (z - 256 * 256 ^ Z.of_nat n)
      with (z + (- 256 ^ Z.of_nat n) * 256) by lia.
    rewrite Z.div_add by lia.
    replace (z / 256 + - 256 ^ Z.of_nat n) with (z / 256 - 256 ^ Z.of_nat n)
      by lia.
    apply IH.
Qed.

(** [np.frombuffer] on a byte string of even and of odd length. *)
Lemma frombuffer_outcome_pair (b : list byte) :
  (if Nat.even (length b)
   then exists ws, frombuffer_uint16 b = Ok ws
                   /\ (2 * length ws = length b)%nat
                   /\ Forall uint16 ws
                   /\ flat_map (le_bytes 2) ws = b
   else frombuffer_uint16 b = Raise ValueError)
  /\ forall x,
     (if Nat.even (length (x :: b))
      then exists ws, frombuffer_uint16 (x :: b) = Ok ws
                      /\ (2 * length ws = length (x :: b))%nat
                      /\ Forall uint16 ws
                      /\ flat_map (le_bytes 2) ws = x :: b
      else frombuffer_uint16 (x :: b) = Raise ValueError).
Proof.
  induction b as [|y b [IH0 IH1]].
  - split.
    + exists []. repeat split. constructor.
    + intros x. reflexivity.
  - split; [apply IH1|].
    intros x. cbn [length]. rewrite Nat.even_succ_succ.
    cbn [frombuffer_uint16].
    destruct (Nat.even (length b)).
    + destruct IH0 as (ws & Hws & Hlen & Hr & Hflat).
      exists ((Z_of_byte x + 256 * Z_of_byte y) :: ws).
      rewrite Hws. cbn [bind]. split; [reflexivity|].
      split; [cbn [length]; lia|]. split.
      * constructor; [|exact Hr].
        pose proof (Z_of_byte_range x). pose proof (Z_of_byte_range y).
        unfold uint16. change (2 ^ 16) with 65536. lia.
      * change (flat_map (le_bytes 2) ((Z_of_byte x + 256 * Z_of_byte y) :: ws))
          with (byte_of_Z (Z_of_byte x + 256 * Z_of_byte y)
                :: byte_of_Z ((Z_of_byte x + 256 * Z_of_byte y) / 256)
                :: flat_map (le_bytes 2) ws).
        rewrite byte_of_Z_low, high_of_low, Hflat.
        replace (Z_of_byte y) with (Z_of_byte y + 256 * 0) by lia.
        rewrite byte_of_Z_low. reflexivity.
    + rewrite IH0. reflexivity.
Qed.

Lemma length_bslice {A} (data : list A) (i j : nat) :
  length (bslice data i j) = Nat.min (j - i) (length data - i).
Proof. unfold bslice. rewrite length_firstn, length_skipn. reflexivity. Qed.

Lemma header_lengths (data : datagram) :
  (10 <= length data)%nat ->
  length (bslice data 0 4) = 4%nat
  /\ length ([x00; x00] ++ rev (bslice data 4 10)) = 8%nat
  /\ length (bslice data 4 10) = 6%nat
  /\ length (skipn 10 data) = (length data - 10)%nat
  /\ data = bslice data 0 4 ++ bslice data 4 10 ++ skipn 10 data.
Proof.
  intros H.
  assert (H6 : length (bslice data 4 10) = 6%nat) by (rewrite length_bslice; lia).
  repeat split.
  - rewrite length_bslice. lia.
  - rewrite length_app, length_rev, H6. reflexivity.
  - exact H6.
  - apply length_skipn.
  - unfold bslice. cbn [Nat.sub skipn].
    rewrite <- (firstn_skipn 4 data) at 1. f_equal.
    rewrite <- (firstn_skipn 6 (skipn 4 data)) at 1. f_equal.
    rewrite skipn_skipn. reflexivity.
Qed.

(** X1: the decoder fails with [struct.error] exactly on data of fewer
    than 10 bytes, with [ValueError] exactly on data of at least 10 bytes
    and odd length (a payload that is not whole 16-bit words), and gives
    a packet exactly on data of at least 10 bytes and even length. *)
Theorem decode_outcome (data : datagram) :
  (decode data = Raise StructError <-> (length data < 10)%nat)
  /\ (decode data = Raise ValueError
      <-> (10 <= length data)%nat /\ Nat.even (length data) = false)
  /\ ((exists p, decode data = Ok p)
      <-> (10 <= length data)%nat /\ Nat.even (length data) = true).
Proof.
  destruct (Nat.lt_ge_cases (length data) 10) as [Hs|Hl].
  - rewrite (decode_short data Hs).
    split; [|split]; split.
    + intros _. exact Hs.
    + intros _. reflexivity.
    + intros E. discriminate E.
    + intros [Hl _]. lia.
    + intros [p E]. discriminate E.
    + intros [Hl _]. lia.
  - destruct (header_lengths data Hl) as (H4 & H8 & _ & Hp & _).
    assert (Hd : decode data
                 = (ws <- frombuffer_uint16 (skipn 10 data) ;;
                    Ok {| packet_num :=
                            (let u := le_uint (bslice data 0 4) in
                             if u <? 2 ^ 31 then u else u - 2 ^ 32);
                          byte_count := be_uint ([x00; x00] ++ rev (bslice data 4 10));
                          packet_data := ws |})).
    { unfold decode, unpack_int32_le, unpack_uint64_be.
      rewrite H4, H8. reflexivity. }
    assert (He : Nat.even (length (skipn 10 data)) = Nat.even (length data)).
    { rewrite Hp. replace (length data) with (10 + (length data - 10))%nat at 2 by lia.
      rewrite Nat.even_add. cbn [Nat.even]. destruct (Nat.even _); reflexivity. }
    pose proof (proj1 (frombuffer_outcome_pair (skipn 10 data))) as Hf.
    rewrite He in Hf. rewrite Hd.
    destruct (Nat.even (length data)).
    + destruct Hf as (ws & Hws & _). rewrite Hws. cbn [bind].
      split; [|split]; split.
      * intros E. discriminate E.
      * intros Hs. lia.
      * intros E. discriminate E.
      * intros [_ E]. discriminate E.
      * intros _. split; [exact Hl|reflexivity].
      * intros _. eexists. reflexivity.
    + rewrite Hf. cbn [bind].
      split; [|split]; split.
      * intros E. discriminate E.
      * intros Hs. lia.
      * intros _. split; [exact Hl|reflexivity].
      * intros _. reflexivity.
      * intros [p E]. discriminate E.
      * intros [_ E]. discriminate E.
Qed.

Lemma decode_fields (data : datagram) (p : packet) :
  decode data = Ok p ->
  (10 <= length data)%nat
  /\ packet_num p = (let u := le_uint (bslice data 0 4) in
                     if u <? 2 ^ 31 then u else u - 2 ^ 32)
  /\ byte_count p = le_uint (bslice data 4 10)
  /\ frombuffer_uint16 (skipn 10 data) = Ok (packet_data p).
Proof.
  intros H.
  assert (Hl : (10 <= length data)%nat).
  { destruct (Nat.lt_ge_cases (length data) 10) as [Hs|Hl]; [|exact Hl].
    rewrite (decode_short data Hs) in H. discriminate H. }
  split; [exact Hl|].
  destruct (header_lengths data Hl) as (H4 & H8 & _ & _ & _).
  unfold decode, unpack_int32_le, unpack_uint64_be in H.
  rewrite H4, H8 in H. cbn [Nat.eqb bind] in H.
  destruct (frombuffer_uint16 (skipn 10 data)) as [ws|e]; [|discriminate H].
  cbn [bind] in H. injection H as <-. cbn [packet_num byte_count packet_data].
  split; [reflexivity|]. split; [|reflexivity].
  exact (eq_trans (be_uint_zero_prefix _) (be_uint_rev _)).
Qed.

(** The ranges of the fields of a decoded packet. *)
Lemma decoded_in_range (data : datagram) (p : packet) :
  decode data = Ok p ->
  - 2 ^ 31 <= packet_num p < 2 ^ 31
  /\ 0 <= byte_count p < 2 ^ 48
  /\ Forall uint16 (packet_data p)
  /\ 2 * len (packet_data p) + 10 = len data.
Proof.
  intros H. destruct (decode_fields data p H) as (Hl & Hn & Hb & Hw).
  destruct (header_lengths data Hl) as (H4 & _ & H6 & Hp & _).
  pose proof (le_uint_range (bslice data 0 4)) as R4. rewrite H4 in R4.
  pose proof (le_uint_range (bslice data 4 10)) as R6. rewrite H6 in R6.
  change (256 ^ Z.of_nat 4) with (2 ^ 32) in R4.
  change (256 ^ Z.of_nat 6) with (2 ^ 48) in R6.
  split; [|split; [|split]].
  - rewrite Hn. cbv zeta.
    destruct (Z.ltb_spec (le_uint (bslice data 0 4)) (2 ^ 31)); lia.
  - rewrite Hb. exact R6.
  - pose proof (proj1 (frombuffer_outcome_pair (skipn 10 data))) as Hf.
    destruct (Nat.even (length (skipn 10 data))).
    + destruct Hf as (ws & Hws & _ & Hr & _). rewrite Hws in Hw.
      injection Hw as <-. exact Hr.
    + rewrite Hf in Hw. discriminate Hw.
  - pose proof (proj1 (frombuffer_outcome_pair (skipn 10 data))) as Hf.
    destruct (Nat.even (length (skipn 10 data))).
    + destruct Hf as (ws & Hws & Hlen & _). rewrite Hws in Hw.
      injection Hw as <-. unfold len. lia.
    + rewrite Hf in Hw. discriminate Hw.
Qed.

(** X2: whatever the datagram, a decoded packet has a sequence number in
    the signed 32-bit range, a byte counter below 2^48 (the two bytes
    prepended for the 64-bit read are zero), sample words below 2^16, and
    one word for every two bytes after the header. *)
Theorem decode_ranges (data : datagram) (p : packet) :
  decode data = Ok p ->
  - 2 ^ 31 <= packet_num p < 2 ^ 31
  /\ 0 <= byte_count p < 2 ^ 48
  /\ Forall uint16 (packet_data p)
  /\ 2 * len (packet_data p) + 10 = len data.
Proof. exact (decoded_in_range data p). Qed.

Lemma decode_ranges_witness :
  let data := encode_header (-7) 2912 ++ [x01; x02; xff; xff] in
  let p := {| packet_num := -7; byte_count := 2912; packet_data := [513; 65535] |} in
  - 2 ^ 31 <= packet_num p < 2 ^ 31
  /\ 0 <= byte_count p < 2 ^ 48
  /\ Forall uint16 (packet_data p)
  /\ 2 * len (packet_data p) + 10 = len data.
Proof.
  intros data p. apply (decode_ranges data p). vm_compute. reflexivity.
Defined.

(** X3: the decoder loses nothing: writing a decoded packet back in the
    wire format gives the bytes that were decoded, so two byte strings
    that decode to the same packet are equal. *)
Theorem encode_decode (data : datagram) (p : packet) :
  decode data = Ok p ->
  encode_packet p = data
  /\ forall data', decode data' = Ok p -> data' = data.
Proof.
  assert (Henc : forall d q, decode d = Ok q -> encode_packet q = d).
  { intros d q H. destruct (decode_fields d q H) as (Hl & Hn & Hb & Hw).
    destruct (header_lengths d Hl) as (H4 & _ & H6 & _ & Hsplit).
    unfold encode_packet, encode_header.
    transitivity (bslice d 0 4 ++ bslice d 4 10 ++ skipn 10 d);
      [|symmetry; exact Hsplit].
    rewrite <- app_assoc. f_equal; [|f_equal].
    - rewrite Hn. cbv zeta.
      pose proof (le_bytes_le_uint (bslice d 0 4)) as E. rewrite H4 in E.
      destruct (le_uint (bslice d 0 4) <? 2 ^ 31); [exact E|].
      change (2 ^ 32) with (256 ^ Z.of_nat 4).
      rewrite le_bytes_wrap. exact E.
    - rewrite Hb.
      pose proof (le_bytes_le_uint (bslice d 4 10)) as E. rewrite H6 in E.
      exact E.
    - pose proof (proj1 (frombuffer_outcome_pair (skipn 10 d))) as Hf.
      destruct (Nat.even (length (skipn 10 d))).
      + destruct Hf as (ws & Hws & _ & _ & Hflat). rewrite Hws in Hw.
        injection Hw as <-. exact Hflat.
      + rewrite Hf in Hw. discriminate Hw. }
  intros H. split; [apply Henc; exact H|].
  intros data' H'. rewrite <- (Henc data' p H'). apply Henc. exact H.
Qed.

Lemma encode_decode_witness :
  let data := encode_header (-7) 2912 ++ [x01; x02; xff; xff] in
  let p := {| packet_num := -7; byte_count := 2912; packet_data := [513; 65535] |} in
  encode_packet p = data
  /\ forall data', decode data' = Ok p -> data' = data.
Proof.
  intros data p. apply (encode_decode data p). vm_compute. reflexivity.
Defined.

(** ** [recvfrom] and the size of a packet *)

Lemma take_app_exact {A} (d e : list A) :
  forall n, len d = n -> take n (d ++ e) = d.
Proof.
  induction d as [|x d IH]; intros n Hn.
  - unfold len in Hn. cbn [length] in Hn. subst n. cbn [app].
    destruct e; reflexivity.
  - unfold len in Hn. cbn [length] in Hn. cbn [app take].
    destruct (Z.ltb_spec 0 n); [|lia].
    f_equal. apply IH. unfold len. lia.
Qed.

Lemma take_all {A} (d : list A) :
  forall n, len d <= n -> take n d = d.
Proof.
  induction d as [|x d IH]; intros n Hn; [reflexivity|].
  unfold len in Hn. cbn [length] in Hn. cbn [take].
  destruct (Z.ltb_spec 0 n); [|lia].
  f_equal. apply IH. unfold len. lia.
Qed.

Lemma take_len {A} (d : list A) :
  forall n, 0 <= n -> len (take n d) <= n.
Proof.
  induction d as [|x d IH]; intros n Hn; cbn [take].
  - unfold len. cbn [length]. lia.
  - destruct (Z.ltb_spec 0 n).
    + specialize (IH (n - 1) ltac:(lia)). unfold len in *. cbn [length]. lia.
    + unfold len. cbn [length]. lia.
Qed.

(** X4: a datagram longer than MAX_PACKET_SIZE is cut to its first 4096
    bytes: what follows them never reaches the decoder. *)
Theorem read_data_packet_truncates (d extra : datagram) (rest : socket) :
  len d = MAX_PACKET_SIZE ->
  _read_data_packet ((d ++ extra) :: rest) = _read_data_packet (d :: rest).
Proof.
  intros Hd. cbn [_read_data_packet]. unfold recvfrom.
  rewrite (take_app_exact d extra _ Hd), (take_all d) by lia.
  reflexivity.
Qed.

Lemma read_data_packet_truncates_witness :
  _read_data_packet ((repeat x07 (Z.to_nat 4096) ++ [x01; x02; x03]) :: [])
  = _read_data_packet (repeat x07 (Z.to_nat 4096) :: []).
Proof.
  apply (read_data_packet_truncates (repeat x07 (Z.to_nat 4096)) [x01; x02; x03] []).
  vm_compute. reflexivity.
Defined.

(** X5: a received packet never carries more than 2043 sample words, and
    receiving it takes exactly one datagram off the socket. *)
Theorem read_data_packet_size (sock rest : socket) (p : packet) :
  _read_data_packet sock = Ok (p, rest) ->
  len (packet_data p) <= 2043
  /\ exists d, sock = d :: rest /\ decode (recvfrom d) = Ok p.
Proof.
  destruct sock as [|d sock']; [discriminate|].
  cbn [_read_data_packet].
  destruct (decode (recvfrom d)) as [q|e] eqn:E; [|discriminate].
  cbn [bind]. intros H. injection H as <- <-.
  split; [|exists d; split; [reflexivity|exact E]].
  destruct (decoded_in_range _ _ E) as (_ & _ & _ & Hlen).
  pose proof (take_len d MAX_PACKET_SIZE ltac:(unfold MAX_PACKET_SIZE; lia)) as Hc.
  fold (recvfrom d) in Hc. unfold MAX_PACKET_SIZE in Hc. lia.
Qed.

Lemma read_data_packet_size_witness :
  let p := {| packet_num := 1; byte_count := 0; packet_data := [7; 8] |} in
  len (packet_data p) <= 2043
  /\ exists d, [encode_packet p; short_datagram] = d :: [short_datagram]
               /\ decode (recvfrom d) = Ok p.
Proof.
  intro p. apply (read_data_packet_size [encode_packet p; short_datagram]).
  vm_compute. reflexivity.
Defined.

(** ** What [read] returns, in general *)

Lemma count_packet_mod (n : Z) :
  0 <= n <= 360 -> count_packet n = (n + 1) mod 361.
Proof.
  intros Hn. unfold count_packet. rewrite PACKETS_IN_FRAME_CLIPPED_eq.
  destruct (Z.ltb_spec 360 (n + 1)).
  - replace n with 360 by lia. reflexivity.
  - symmetry. apply Z.mod_small. lia.
Qed.

(** The packet counter over [k] packets: it goes up to 360 and starts
    again from 0. *)
Lemma count_packets_mod (k : nat) (n : Z) :
  0 <= n <= 360 ->
  Nat.iter k count_packet n = (n + Z.of_nat k) mod 361.
Proof.
  intros Hn. induction k as [|k IH].
  - change (Nat.iter 0 count_packet n) with n. change (Z.of_nat 0) with 0.
    rewrite Z.add_0_r, Z.mod_small by lia. reflexivity.
  - rewrite Nat.iter_succ, IH.
    pose proof (Z.mod_pos_bound (n + Z.of_nat k) 361 ltac:(lia)).
    rewrite count_packet_mod by lia.
    rewrite Z.add_mod_idemp_l by lia. f_equal. lia.
Qed.

Lemma inside_frame_intro (d : datagram) (p : packet) :
  decoded d = Ok p ->
  byte_count p mod BYTES_IN_FRAME_CLIPPED <> 0 ->
  inside_frame d = true /\ packet_of d = p.
Proof.
  intros Hd Hb. unfold inside_frame, packet_of. rewrite Hd.
  split; [|reflexivity]. apply negb_true_iff, Z.eqb_neq. exact Hb.
Qed.

Lemma frame_start_intro (d : datagram) (p : packet) :
  decoded d = Ok p ->
  byte_count p mod BYTES_IN_FRAME_CLIPPED = 0 ->
  frame_start d = true /\ payload d = packet_data p.
Proof.
  intros Hd Hb. unfold frame_start, payload. rewrite Hd, Hb.
  split; reflexivity.
Qed.

(** The second loop ends at the first frame-start datagram; what it
    returns is the buffer after the slot writes of the run before it. *)
Lemma rest_loop_result (sock : socket) :
  forall frame n r rest,
  while_True read_rest_body (frame, n) sock = Ok (r, rest) ->
  exists mid d2,
    sock = mid ++ d2 :: rest
    /\ forallb inside_frame mid = true
    /\ frame_start d2 = true
    /\ r = {| ret_frame := write_run mid frame;
              lost_packets := PACKETS_IN_FRAME_CLIPPED
                              - (Nat.iter (length mid) count_packet n + 1) |}.
Proof.
  induction sock as [|d sock IH]; intros frame n r rest H; [discriminate H|].
  destruct (decoded d) as [p|e] eqn:Hd.
  - destruct (Z.eq_dec (byte_count p mod BYTES_IN_FRAME_CLIPPED) 0) as [Hb|Hb].
    + rewrite (rest_step_end frame n d p sock Hd Hb) in H.
      injection H as <- <-.
      exists [], d. repeat split.
      apply (frame_start_intro d p Hd Hb).
    + rewrite (rest_step_mid frame n d p sock Hd Hb) in H.
      destruct (IH _ _ _ _ H) as (mid & d2 & -> & Hmid & Hd2 & ->).
      destruct (inside_frame_intro d p Hd Hb) as [Hi Hp].
      exists (d :: mid), d2. split; [reflexivity|].
      split; [cbn [forallb]; rewrite Hi, Hmid; reflexivity|].
      split; [exact Hd2|].
      unfold write_run. cbn [fold_left length]. rewrite Hp.
      rewrite Nat.iter_succ_r. reflexivity.
  - cbn [while_True] in H. unfold decoded in Hd. rewrite Hd in H. discriminate H.
Qed.

(** The first loop ends at the first frame-start datagram, whose payload
    goes to the head of the buffer. *)
Lemma wait_loop_result (sock : socket) :
  forall frame st rest,
  while_True read_wait_body frame sock = Ok (st, rest) ->
  exists pre d1,
    sock = pre ++ d1 :: rest
    /\ forallb inside_frame pre = true
    /\ frame_start d1 = true
    /\ exists frame1,
         set_slice frame 0 UINT16_IN_PACKET (payload d1) = Ok frame1
         /\ st = (frame1, 1).
Proof.
  induction sock as [|d sock IH]; intros frame st rest H; [discriminate H|].
  destruct (decoded d) as [p|e] eqn:Hd.
  - destruct (Z.eq_dec (byte_count p mod BYTES_IN_FRAME_CLIPPED) 0) as [Hb|Hb].
    + rewrite (wait_step_start frame d p sock Hd Hb) in H.
      destruct (set_slice frame 0 UINT16_IN_PACKET (packet_data p))
        as [frame1|e] eqn:Es; [|discriminate H].
      cbn [bind] in H. injection H as <- <-.
      destruct (frame_start_intro d p Hd Hb) as [Hf Hp].
      exists [], d. split; [reflexivity|]. split; [reflexivity|].
      split; [exact Hf|]. exists frame1. rewrite Hp. split; [exact Es|reflexivity].
    + rewrite (wait_step_skip frame d p sock Hd Hb) in H.
      destruct (IH _ _ _ H) as (pre & d1 & -> & Hpre & Hd1 & Hres).
      destruct (inside_frame_intro d p Hd Hb) as [Hi _].
      exists (d :: pre), d1. split; [reflexivity|].
      split; [cbn [forallb]; rewrite Hi, Hpre; reflexivity|].
      split; [exact Hd1|exact Hres].
  - cbn [while_True] in H. unfold decoded in Hd. rewrite Hd in H. discriminate H.
Qed.

(** The shape of every stream on which [read] returns, and the result. *)
Lemma read_decomposition (sock : socket) (r : frame_read) :
  read sock = Ok r ->
  exists pre d1 mid d2 rest frame1,
    sock = pre ++ d1 :: mid ++ d2 :: rest
    /\ forallb inside_frame pre = true
    /\ frame_start d1 = true
    /\ forallb inside_frame mid = true
    /\ frame_start d2 = true
    /\ set_slice zero_frame 0 UINT16_IN_PACKET (payload d1) = Ok frame1
    /\ ret_frame r = write_run mid frame1
    /\ lost_packets r = 359 - ((len mid + 1) mod 361).
Proof.
  rewrite read_unfold. intros H.
  destruct (while_True read_wait_body zero_frame sock) as [[st sock1]|e] eqn:Hw;
    [|discriminate H].
  cbn [bind] in H.
  destruct (while_True read_rest_body st sock1) as [[r' sock2]|e] eqn:Hr;
    [|discriminate H].
  cbn [bind] in H. injection H as <-.
  destruct (wait_loop_result _ _ _ _ Hw) as (pre & d1 & -> & Hpre & Hd1 & frame1 & Hs & ->).
  destruct (rest_loop_result _ _ _ _ _ Hr) as (mid & d2 & -> & Hmid & Hd2 & ->).
  exists pre, d1, mid, d2, sock2, frame1.
  repeat split; try assumption.
  cbn [lost_packets]. rewrite PACKETS_IN_FRAME_CLIPPED_eq.
  rewrite count_packets_mod by lia. unfold len.
  replace (1 + Z.of_nat (length mid)) with (Z.of_nat (length mid) + 1) by lia.
  lia.
Qed.

(** X6: [read] returns only on a stream with two frame-start datagrams.
    Everything before the first one is skipped, everything after the
    second one is left unread, and the result is decided by the run
    between them: the buffer is the zeroed buffer with the payload of the
    first frame start at its head and then the slot writes of the run,
    and the loss counter is 359 - ((m + 1) mod 361) for a run of m
    packets. *)
Theorem read_result (sock : socket) (r : frame_read) :
  read sock = Ok r ->
  exists pre d1 mid d2 rest frame1,
    sock = pre ++ d1 :: mid ++ d2 :: rest
    /\ forallb inside_frame pre = true
    /\ frame_start d1 = true
    /\ forallb inside_frame mid = true
    /\ frame_start d2 = true
    /\ set_slice zero_frame 0 UINT16_IN_PACKET (payload d1) = Ok frame1
    /\ ret_frame r = write_run mid frame1
    /\ lost_packets r = 359 - ((len mid + 1) mod 361).
Proof. exact (read_decomposition sock r). Qed.

Lemma read_result_witness :
  exists r,
    read boundary_pair = Ok r
    /\ exists pre d1 mid d2 rest frame1,
         boundary_pair = pre ++ d1 :: mid ++ d2 :: rest
         /\ forallb inside_frame pre = true
         /\ frame_start d1 = true
         /\ forallb inside_frame mid = true
         /\ frame_start d2 = true
         /\ set_slice zero_frame 0 UINT16_IN_PACKET (payload d1) = Ok frame1
         /\ ret_frame r = write_run mid frame1
         /\ lost_packets r = 359 - ((len mid + 1) mod 361).
Proof.
  destruct (read boundary_pair) as [r|e] eqn:E.
  - exists r. split; [reflexivity|].
    apply (read_result boundary_pair r). exact E.
  - exfalso. assert (H : is_ok (read boundary_pair) = true)
      by (vm_compute; reflexivity).
    rewrite E in H. discriminate H.
Defined.

Lemma write_run_length (run : socket) (frame : list Z) :
  len frame = UINT16_IN_FRAME -> len (write_run run frame) = UINT16_IN_FRAME.
Proof. apply fold_write_length. Qed.

Lemma write_run_cons (d : datagram) (run : socket) (frame : list Z) :
  write_run (d :: run) frame = write_run run (write_slot frame (packet_of d)).
Proof. reflexivity. Qed.

Lemma write_run_app (run1 run2 : socket) (frame : list Z) :
  write_run (run1 ++ run2) frame = write_run run2 (write_run run1 frame).
Proof. unfold write_run. apply fold_left_app. Qed.

(** X7: whenever [read] returns, the buffer has exactly UINT16_IN_FRAME =
    262144 words and the loss counter lies between -1 and 359. *)
Theorem read_invariants (sock : socket) (r : frame_read) :
  read sock = Ok r ->
  len (ret_frame r) = UINT16_IN_FRAME
  /\ -1 <= lost_packets r <= 359.
Proof.
  intros H.
  destruct (read_decomposition sock r H)
    as (pre & d1 & mid & d2 & rest & frame1 & _ & _ & _ & _ & _ & Hs & Hf & Hl).
  split.
  - rewrite Hf. apply write_run_length.
    apply set_slice_length in Hs.
    + rewrite Hs. apply len_zero_frame.
    + rewrite UINT16_IN_PACKET_eq. lia.
    + rewrite len_zero_frame, UINT16_IN_PACKET_eq, UINT16_IN_FRAME_eq. lia.
  - rewrite Hl. pose proof (Z.mod_pos_bound (len mid + 1) 361 ltac:(lia)). lia.
Qed.

Lemma read_invariants_witness :
  exists r,
    read boundary_pair = Ok r
    /\ len (ret_frame r) = UINT16_IN_FRAME
    /\ -1 <= lost_packets r <= 359.
Proof.
  destruct (read boundary_pair) as [r|e] eqn:E.
  - exists r. split; [reflexivity|].
    apply (read_invariants boundary_pair r). exact E.
  - exfalso. assert (H : is_ok (read boundary_pair) = true)
      by (vm_compute; reflexivity).
    rewrite E in H. discriminate H.
Defined.

(** Dropping the packets before the first frame start. *)
Lemma read_drop_prefix (pre sock : socket) :
  forallb inside_frame pre = true ->
  read (pre ++ sock) = read sock.
Proof.
  intros Hpre. rewrite !read_unfold.
  rewrite (wait_loop_inside zero_frame sock pre Hpre). reflexivity.
Qed.

(** X8: the packets that arrive before the first frame start are
    discarded: they change nothing in what [read] does. *)
Theorem read_skips_before_start (pre sock : socket) :
  forallb inside_frame pre = true ->
  read (pre ++ sock) = read sock.
Proof. exact (read_drop_prefix pre sock). Qed.

Lemma read_skips_before_start_witness :
  read ([encode_packet (synth_packet 357); encode_packet (synth_packet 358)]
          ++ boundary_pair)
  = read boundary_pair.
Proof.
  apply (read_skips_before_start
           [encode_packet (synth_packet 357); encode_packet (synth_packet 358)]).
  vm_compute. reflexivity.
Defined.

(** [read] on a run between two frame starts. *)
Lemma read_run_between_starts (pre mid rest : socket) (d1 d2 : datagram) :
  forallb inside_frame pre = true ->
  frame_start d1 = true ->
  len (payload d1) = 728 ->
  forallb inside_frame mid = true ->
  frame_start d2 = true ->
  read (pre ++ d1 :: mid ++ d2 :: rest)
  = Ok {| ret_frame := write_run mid (payload d1 ++ zeros (UINT16_IN_FRAME - 728));
          lost_packets := 359 - ((len mid + 1) mod 361) |}.
Proof.
  intros Hpre Hd1 Hlen Hmid Hd2.
  rewrite (read_drop_prefix pre _ Hpre), read_unfold.
  apply frame_start_spec in Hd1 as (p1 & Hp1 & Hb1).
  apply frame_start_spec in Hd2 as (p2 & Hp2 & Hb2).
  assert (Hpay : payload d1 = packet_data p1) by (unfold payload; rewrite Hp1; reflexivity).
  rewrite Hpay in *.
  rewrite (wait_step_start zero_frame d1 p1 _ Hp1 Hb1).
  rewrite (first_packet_write _ Hlen). cbn [bind].
  rewrite (rest_loop_inside (d2 :: rest) mid Hmid).
  rewrite (rest_step_end _ _ d2 p2 rest Hp2 Hb2). cbn [bind].
  rewrite PACKETS_IN_FRAME_CLIPPED_eq, count_packets_mod by lia.
  unfold write_run, len. do 2 f_equal.
  replace (1 + Z.of_nat (length mid)) with (Z.of_nat (length mid) + 1) by lia.
  lia.
Qed.

(** X9: on a stream with a frame-start packet of 728 words, a run of
    packets that are no frame starts, and a second frame-start packet,
    [read] returns the slot writes of the run over the first payload
    followed by zeros; its loss counter is 359 - ((m + 1) mod 361) for a
    run of m packets, so the counter starts again after 360 packets
    without a frame start.  What follows the second frame start is not
    read. *)
Theorem read_between_starts (pre mid rest : socket) (d1 d2 : datagram) :
  forallb inside_frame pre = true ->
  frame_start d1 = true ->
  len (payload d1) = 728 ->
  forallb inside_frame mid = true ->
  frame_start d2 = true ->
  read (pre ++ d1 :: mid ++ d2 :: rest)
  = Ok {| ret_frame := write_run mid (payload d1 ++ zeros (UINT16_IN_FRAME - 728));
          lost_packets := 359 - ((len mid + 1) mod 361) |}.
Proof. exact (read_run_between_starts pre mid rest d1 d2). Qed.

Lemma read_between_starts_witness :
  read ([] ++ encode_packet (synth_packet 0)
           :: [encode_packet (synth_packet 2)] ++ next_start :: [short_datagram])
  = Ok {| ret_frame :=
            write_run [encode_packet (synth_packet 2)]
                      (payload (encode_packet (synth_packet 0))
                         ++ zeros (UINT16_IN_FRAME - 728));
          lost_packets := 359 - ((len [encode_packet (synth_packet 2)] + 1) mod 361) |}.
Proof.
  apply (read_between_starts [] [encode_packet (synth_packet 2)] [short_datagram]
           (encode_packet (synth_packet 0)) next_start).
  - reflexivity.
  - vm_compute. reflexivity.
  - vm_compute. reflexivity.
  - vm_compute. reflexivity.
  - vm_compute. reflexivity.
Defined.

(** X10: the first loop has no [try]: a frame-start packet whose payload
    has neither 728 words nor a single word makes [read] raise
    [ValueError]. *)
Theorem read_bad_first_payload (pre rest : socket) (d1 : datagram) :
  forallb inside_frame pre = true ->
  frame_start d1 = true ->
  len (payload d1) <> 728 ->
  len (payload d1) <> 1 ->
  read (pre ++ d1 :: rest) = Raise ValueError.
Proof.
  intros Hpre Hd1 H728 H1.
  rewrite (read_drop_prefix pre _ Hpre), read_unfold.
  apply frame_start_spec in Hd1 as (p1 & Hp1 & Hb1).
  assert (Hpay : payload d1 = packet_data p1) by (unfold payload; rewrite Hp1; reflexivity).
  rewrite Hpay in *.
  rewrite (wait_step_start zero_frame d1 p1 _ Hp1 Hb1).
  rewrite set_slice_inside
    by (rewrite ?len_zero_frame, ?UINT16_IN_PACKET_eq, ?UINT16_IN_FRAME_eq; lia).
  unfold broadcast_to. rewrite UINT16_IN_PACKET_eq, Z.sub_0_r.
  destruct (Z.eqb_spec (len (packet_data p1)) 728); [contradiction|].
  destruct (Z.eqb_spec (len (packet_data p1)) 1); [contradiction|].
  reflexivity.
Qed.

Lemma read_bad_first_payload_witness :
  read ([] ++ encode_packet {| packet_num := 1; byte_count := 0;
                               packet_data := [1; 2; 3] |} :: boundary_pair)
  = Raise ValueError.
Proof.
  apply (read_bad_first_payload [] boundary_pair).
  - reflexivity.
  - vm_compute. reflexivity.
  - vm_compute. discriminate.
  - vm_compute. discriminate.
Defined.

(** ** The slot write: payload sizes, overwriting *)

(** The slot write, by the size of the payload. *)
Lemma write_slot_by_payload (frame : list Z) (p : packet) :
  len frame = UINT16_IN_FRAME ->
  let lo := Z.to_nat (curr_idx p * UINT16_IN_PACKET) in
  let hi := Z.to_nat ((curr_idx p + 1) * UINT16_IN_PACKET) in
  (len (packet_data p) = 728 ->
     write_slot frame p = firstn lo frame ++ packet_data p ++ skipn hi frame)
  /\ (forall w, packet_data p = [w] ->
     write_slot frame p
     = firstn lo frame ++ repeat w (Z.to_nat 728) ++ skipn hi frame)
  /\ (len (packet_data p) <> 728 -> len (packet_data p) <> 1 ->
     write_slot frame p = frame)
  /\ len (write_slot frame p) = len frame.
Proof.
  intros Hf lo hi.
  destruct (slot_inside p frame Hf) as (H0 & Heq & Hle).
  assert (Hw : write_slot frame p
               = match broadcast_to (packet_data p) 728 with
                 | Ok w => firstn lo frame ++ w ++ skipn hi frame
                 | Raise _ => frame
                 end).
  { unfold write_slot, lo, hi. rewrite UINT16_IN_PACKET_eq in *.
    rewrite set_slice_inside by lia.
    replace ((curr_idx p + 1) * 728 - curr_idx p * 728) with 728 by lia.
    destruct (broadcast_to (packet_data p) 728); reflexivity. }
  split; [|split; [|split]].
  - intros H. rewrite Hw, (broadcast_to_same _ _ H). reflexivity.
  - intros w H. rewrite Hw, H. reflexivity.
  - intros H728 H1. rewrite Hw. unfold broadcast_to.
    destruct (Z.eqb_spec (len (packet_data p)) 728); [contradiction|].
    destruct (Z.eqb_spec (len (packet_data p)) 1); [contradiction|].
    reflexivity.
  - rewrite Hf. apply write_slot_length. exact Hf.
Qed.

(** X11: the slot write of [read] has three outcomes.  A payload of 728
    words replaces the 728 words of the slot; a payload of one word is
    broadcast over the whole slot; any other payload raises inside the
    [try] and the buffer stays as it was.  In no case does the buffer
    change its length. *)
Theorem write_slot_cases (frame : list Z) (p : packet) :
  len frame = UINT16_IN_FRAME ->
  let lo := Z.to_nat (curr_idx p * UINT16_IN_PACKET) in
  let hi := Z.to_nat ((curr_idx p + 1) * UINT16_IN_PACKET) in
  (len (packet_data p) = 728 ->
     write_slot frame p = firstn lo frame ++ packet_data p ++ skipn hi frame)
  /\ (forall w, packet_data p = [w] ->
     write_slot frame p
     = firstn lo frame ++ repeat w (Z.to_nat 728) ++ skipn hi frame)
  /\ (len (packet_data p) <> 728 -> len (packet_data p) <> 1 ->
     write_slot frame p = frame)
  /\ len (write_slot frame p) = len frame.
Proof. exact (write_slot_by_payload frame p). Qed.

Lemma write_slot_cases_witness :
  let p := {| packet_num := 2; byte_count := 1456; packet_data := [9] |} in
  let lo := Z.to_nat (curr_idx p * UINT16_IN_PACKET) in
  let hi := Z.to_nat ((curr_idx p + 1) * UINT16_IN_PACKET) in
  (len (packet_data p) = 728 ->
     write_slot zero_frame p
     = firstn lo zero_frame ++ packet_data p ++ skipn hi zero_frame)
  /\ (forall w, packet_data p = [w] ->
     write_slot zero_frame p
     = firstn lo zero_frame ++ repeat w (Z.to_nat 728) ++ skipn hi zero_frame)
  /\ (len (packet_data p) <> 728 -> len (packet_data p) <> 1 ->
     write_slot zero_frame p = zero_frame)
  /\ len (write_slot zero_frame p) = len zero_frame.
Proof.
  intro p. apply (write_slot_cases zero_frame p).
  vm_compute. reflexivity.
Defined.

Lemma write_slot_overwrite (frame : list Z) (p q : packet) :
  len frame = UINT16_IN_FRAME ->
  curr_idx p = curr_idx q ->
  len (packet_data q) = 728 \/ len (packet_data q) = 1 ->
  write_slot (write_slot frame p) q = write_slot frame q.
Proof.
  intros Hf Hpq Hq.
  rewrite (write_slot_splice (write_slot frame p) q)
    by (apply write_slot_length; exact Hf).
  rewrite (write_slot_splice frame q Hf), (write_slot_splice frame p Hf).
  destruct (broadcast_to (packet_data q) UINT16_IN_PACKET) as [u|e] eqn:Eu.
  - destruct (broadcast_to (packet_data p) UINT16_IN_PACKET) as [w|e] eqn:Ew;
      [|reflexivity].
    apply broadcast_to_length in Ew; [|rewrite UINT16_IN_PACKET_eq; lia].
    apply broadcast_to_length in Eu; [|rewrite UINT16_IN_PACKET_eq; lia].
    destruct (slot_inside p frame Hf) as (Hp0 & Hpe & Hpl).
    rewrite Hpq in *. unfold len in *. rewrite UINT16_IN_PACKET_eq in *.
    destruct (split_at frame (Z.to_nat (curr_idx q * 728)) (length w))
      as (A & B & R & -> & HA & HB); [lia|].
    rewrite (splice_at _ w A B R HA HB).
    rewrite (splice_at _ u A w R HA) by lia.
    rewrite (splice_at _ u A B R HA) by lia.
    reflexivity.
  - exfalso. unfold broadcast_to in Eu. rewrite UINT16_IN_PACKET_eq in Eu.
    destruct Hq as [Hq|Hq]; rewrite Hq in Eu; discriminate Eu.
Qed.

(** X12: the slot is the sequence number minus one, modulo 360, so two
    packets whose sequence numbers differ by a multiple of 360 share a
    slot, and the one delivered later wins: when it has a payload of 728
    words (or of one word), nothing of the earlier packet is left. *)
Theorem write_slot_last_wins (frame : list Z) (p q : packet) (k : Z) :
  len frame = UINT16_IN_FRAME ->
  packet_num q = packet_num p + 360 * k ->
  len (packet_data q) = 728 \/ len (packet_data q) = 1 ->
  curr_idx q = curr_idx p
  /\ write_slot (write_slot frame p) q = write_slot frame q.
Proof.
  intros Hf Hk Hq.
  assert (Hidx : curr_idx q = curr_idx p).
  { unfold curr_idx. rewrite Hk, PACKETS_IN_FRAME_CLIPPED_eq.
    replace (packet_num p + 360 * k - 1) with (packet_num p - 1 + k * 360) by lia.
    apply Z.mod_add. lia. }
  split; [exact Hidx|].
  apply write_slot_overwrite; [exact Hf|symmetry; exact Hidx|exact Hq].
Qed.

Lemma write_slot_last_wins_witness :
  let p := {| packet_num := 5; byte_count := 5824;
              packet_data := repeat 1 (Z.to_nat 728) |} in
  let q := {| packet_num := 365; byte_count := 529984; packet_data := [2] |} in
  curr_idx q = curr_idx p
  /\ write_slot (write_slot zero_frame p) q = write_slot zero_frame q.
Proof.
  intros p q. apply (write_slot_last_wins zero_frame p q 1).
  - vm_compute. reflexivity.
  - reflexivity.
  - right. reflexivity.
Defined.

(** X13: inside a frame, a packet whose payload has neither 728 words nor
    one word is counted but not stored: with it the returned buffer is
    the same as without it, and the loss counter is taken from a run that
    is one packet longer. *)
Theorem read_ignores_bad_payload (pre mid1 mid2 rest : socket) (d1 d d2 : datagram) :
  forallb inside_frame pre = true ->
  frame_start d1 = true ->
  len (payload d1) = 728 ->
  forallb inside_frame (mid1 ++ mid2) = true ->
  inside_frame d = true ->
  len (payload d) <> 728 -> len (payload d) <> 1 ->
  frame_start d2 = true ->
  exists buf,
    read (pre ++ d1 :: (mid1 ++ d :: mid2) ++ d2 :: rest)
    = Ok {| ret_frame := buf;
            lost_packets := 359 - ((len (mid1 ++ mid2) + 2) mod 361) |}
    /\ read (pre ++ d1 :: (mid1 ++ mid2) ++ d2 :: rest)
       = Ok {| ret_frame := buf;
               lost_packets := 359 - ((len (mid1 ++ mid2) + 1) mod 361) |}.
Proof.
  intros Hpre Hd1 Hl1 Hmid Hd H728 H1 Hd2.
  rewrite forallb_app in Hmid. apply andb_prop in Hmid as [Hm1 Hm2].
  exists (write_run (mid1 ++ mid2) (payload d1 ++ zeros (UINT16_IN_FRAME - 728))).
  split.
  - rewrite (read_run_between_starts pre (mid1 ++ d :: mid2) rest d1 d2);
      try assumption.
    + f_equal. f_equal.
      * rewrite !write_run_app, write_run_cons.
        set (f := write_run mid1 _).
        assert (Hf : len f = UINT16_IN_FRAME).
        { apply write_run_length. rewrite len_app, Hl1, len_zeros;
            rewrite UINT16_IN_FRAME_eq; lia. }
        destruct (write_slot_by_payload f (packet_of d) Hf) as (_ & _ & Hsame & _).
        assert (Hp : packet_data (packet_of d) = payload d).
        { unfold packet_of, payload. destruct (decoded d); reflexivity. }
        rewrite Hsame by (rewrite Hp; assumption). reflexivity.
      * rewrite !len_app. unfold len. cbn [length].
        do 2 f_equal. lia.
    + rewrite forallb_app. cbn [forallb]. rewrite Hm1, Hd, Hm2. reflexivity.
  - apply (read_run_between_starts pre (mid1 ++ mid2) rest d1 d2);
      try assumption.
    rewrite forallb_app, Hm1, Hm2. reflexivity.
Qed.

Lemma read_ignores_bad_payload_witness :
  exists buf,
    read ([] ++ encode_packet (synth_packet 0)
             :: ([encode_packet (synth_packet 1)]
                   ++ encode_packet {| packet_num := 7; byte_count := 8736;
                                       packet_data := [1; 2; 3] |}
                   :: [])
             ++ next_start :: [])
    = Ok {| ret_frame := buf;
            lost_packets :=
              359 - ((len ([encode_packet (synth_packet 1)] ++ []) + 2) mod 361) |}
    /\ read ([] ++ encode_packet (synth_packet 0)
                :: ([encode_packet (synth_packet 1)] ++ [])
                ++ next_start :: [])
       = Ok {| ret_frame := buf;
               lost_packets :=
                 359 - ((len ([encode_packet (synth_packet 1)] ++ []) + 1) mod 361) |}.
Proof.
  apply (read_ignores_bad_payload [] [encode_packet (synth_packet 1)] [] []).
  - reflexivity.
  - vm_compute. reflexivity.
  - vm_compute. reflexivity.
  - vm_compute. reflexivity.
  - vm_compute. reflexivity.
  - vm_compute. discriminate.
  - vm_compute. discriminate.
  - vm_compute. reflexivity.
Defined.

(** ** A frame with one packet lost *)

(** The slot writes of a run of packets without loss, on a buffer that
    is filled up to their first slot. *)
Lemma write_run_in_order (m : Z) :
  forall (body : socket) (j : Z) (P : list Z),
    0 <= j -> j + len body <= 360 ->
    len P = 728 * j ->
    in_order_from (360 * m + j) body = true ->
    write_run body (P ++ zeros (UINT16_IN_FRAME - 728 * j))
    = (P ++ flat_map payload body)
        ++ zeros (UINT16_IN_FRAME - 728 * (j + len body)).
Proof.
  induction body as [|d body IH]; intros j P Hj Hlen HP Hin.
  - cbn [flat_map]. rewrite app_nil_r.
    unfold len. cbn [length]. rewrite Z.add_0_r. reflexivity.
  - cbn [in_order_from] in Hin. apply andb_prop in Hin as [Hd Hin].
    apply in_order_at_spec in Hd as (p & Hp & Hnum & Hbc & Hpl & Hpay).
    assert (Hl : len (d :: body) = 1 + len body)
      by (unfold len; cbn [length]; lia).
    rewrite Hl in *. pose proof (len_nonneg body) as Hnn.
    assert (Hidx : curr_idx p = j).
    { unfold curr_idx. rewrite Hnum, PACKETS_IN_FRAME_CLIPPED_eq.
      replace (360 * m + j + 1 - 1) with (360 * m + j) by lia.
      apply index_in_frame. lia. }
    assert (Hpk : packet_of d = p) by (unfold packet_of; rewrite Hp; reflexivity).
    rewrite write_run_cons, Hpk.
    assert (Hw : write_slot (P ++ zeros (UINT16_IN_FRAME - 728 * j)) p
                 = (P ++ packet_data p)
                     ++ zeros (UINT16_IN_FRAME - 728 * (j + 1))).
    { rewrite UINT16_IN_FRAME_eq, UINT16_IN_PACKET_eq in *.
      rewrite write_slot_splice
        by (rewrite len_app, len_zeros, HP, UINT16_IN_FRAME_eq; lia).
      rewrite UINT16_IN_PACKET_eq, (broadcast_to_same _ _ Hpl), Hidx.
      replace (262144 - 728 * j) with (728 + (262144 - 728 * (j + 1))) by lia.
      rewrite zeros_app by lia.
      rewrite splice_at.
      - now rewrite <- app_assoc.
      - unfold len in HP. lia.
      - pose proof (len_zeros 728 ltac:(lia)) as Hz. unfold len in Hz, Hpl. lia. }
    rewrite Hw.
    rewrite (IH (j + 1) (P ++ packet_data p)); try lia.
    + cbn [flat_map]. rewrite Hpay, <- !app_assoc.
      replace (j + 1 + len body) with (j + (1 + len body)) by lia.
      reflexivity.
    + rewrite len_app, HP, Hpl, UINT16_IN_PACKET_eq. lia.
    + replace (360 * m + (j + 1)) with (360 * m + j + 1) by lia. exact Hin.
Qed.

(** X14: take a frame of a stream without loss and remove one packet
    that is not its first: the frame-start packet and the packets [before]
    the hole are followed directly by the packets [behind] it, 359
    packets in all, and then by the next frame start.  [read] returns the
    payloads in their slots, 728 zero words in the slot of the missing
    packet and 64 zero words at the end, and a loss counter of 0. *)
Theorem read_one_packet_lost (m : Z) (pre before behind rest : socket)
    (d0 dB : datagram) :
  forallb inside_frame pre = true ->
  in_order_from (360 * m) (d0 :: before) = true ->
  in_order_from (360 * m + len before + 2) behind = true ->
  len before + len behind = 358 ->
  frame_start dB = true ->
  read (pre ++ d0 :: (before ++ behind) ++ dB :: rest)
  = Ok {| ret_frame := flat_map payload (d0 :: before) ++ zeros 728
                         ++ flat_map payload behind ++ zeros 64;
          lost_packets := 0 |}.
Proof.
  intros Hpre Hin0 HinB Hlen HB.
  pose proof (len_nonneg before) as Hn1. pose proof (len_nonneg behind) as Hn2.
  cbn [in_order_from] in Hin0. apply andb_prop in Hin0 as [Hd0 HinA].
  assert (Hstart : frame_start d0 = true).
  { apply (in_order_at_frame_start _ _ Hd0).
    rewrite Z.mul_comm. apply Z.mod_mul. lia. }
  apply in_order_at_spec in Hd0 as (p0 & Hp0 & _ & _ & Hpl0 & Hpay0).
  rewrite UINT16_IN_PACKET_eq in Hpl0.
  destruct (in_order_inside m before 1 ltac:(lia) ltac:(lia) HinA) as (HiA & _ & _).
  replace (360 * m + len before + 2) with (360 * m + (len before + 2)) in HinB by lia.
  destruct (in_order_inside m behind (len before + 2) ltac:(lia) ltac:(lia) HinB)
    as (HiB & _ & _).
  rewrite (read_run_between_starts pre (before ++ behind) rest d0 dB);
    try assumption.
  - f_equal. f_equal.
    + rewrite write_run_app, Hpay0.
      replace (UINT16_IN_FRAME - 728) with (UINT16_IN_FRAME - 728 * 1) by lia.
      rewrite (write_run_in_order m before 1 (packet_data p0))
        by (lia || exact HinA).
      replace (UINT16_IN_FRAME - 728 * (1 + len before))
        with (728 + (UINT16_IN_FRAME - 728 * (len before + 2))) by lia.
      rewrite zeros_app by (rewrite ?UINT16_IN_FRAME_eq; lia).
      rewrite app_assoc.
      rewrite (write_run_in_order m behind (len before + 2))
        by (try lia; try exact HinB;
            rewrite !len_app, Hpl0, len_zeros,
              (len_flat_map_payload _ _ HinA) by lia; lia).
      replace (UINT16_IN_FRAME - 728 * (len before + 2 + len behind)) with 64
        by (rewrite UINT16_IN_FRAME_eq; lia).
      cbn [flat_map]. rewrite Hpay0, <- !app_assoc. reflexivity.
    + rewrite len_app.
      replace (len before + len behind + 1) with 359 by lia. reflexivity.
  - rewrite Hpay0. exact Hpl0.
  - rewrite forallb_app, HiA, HiB. reflexivity.
Qed.

Lemma read_one_packet_lost_witness :
  read ([] ++ encode_packet (synth_packet 0)
           :: ([encode_packet (synth_packet 1)]
                 ++ (skipn 3 frame_init ++ [frame_last]))
           ++ next_start :: [])
  = Ok {| ret_frame :=
            flat_map payload
              (encode_packet (synth_packet 0) :: [encode_packet (synth_packet 1)])
              ++ zeros 728
              ++ flat_map payload (skipn 3 frame_init ++ [frame_last])
              ++ zeros 64;
          lost_packets := 0 |}.
Proof.
  apply (read_one_packet_lost 0 [] [encode_packet (synth_packet 1)]
           (skipn 3 frame_init ++ [frame_last]) []).
  - reflexivity.
  - vm_compute. reflexivity.
  - vm_compute. reflexivity.
  - vm_compute. reflexivity.
  - vm_compute. reflexivity.
Defined.

(** ** [read_frames]: sizes and single elements *)

(** X15: a leftover longer than the batch asks [np.zeros] for a negative
    size: [read_frames] raises [ValueError] before it reads anything from
    the socket. *)
Theorem read_frames_leftover_too_long (leftover : list Z) (num_frames : Z)
    (sock : socket) :
  num_frames * UINT16_IN_FRAME < len leftover ->
  read_frames leftover num_frames sock = Raise ValueError.
Proof.
  intros H. unfold read_frames, np_zeros.
  destruct (Z.ltb_spec (num_frames * UINT16_IN_FRAME - len leftover) 0); [|lia].
  reflexivity.
Qed.

Lemma read_frames_leftover_too_long_witness :
  read_frames [1; 2; 3] 0 boundary_pair = Raise ValueError.
Proof.
  apply (read_frames_leftover_too_long [1; 2; 3] 0 boundary_pair).
  vm_compute. reflexivity.
Defined.




(** ** Commands: the text that is decoded, the callers *)

Lemma unhexlify_odd_shift (t : string) :
  ((exists y, unhexlify t = Ok y) ->
     forall c, unhexlify (String c t) = Raise BinasciiError)
  /\ forall d,
     (exists y, unhexlify (String d t) = Ok y) ->
     forall c, unhexlify (String c (String d t)) = Raise BinasciiError.
Proof.
  induction t as [|e t [IH0 IH1]].
  - split.
    + intros _ c. reflexivity.
    + intros d [y H]. discriminate H.
  - split; [apply IH1|].
    intros d [y H] c. cbn [unhexlify] in H.
    destruct (hex_digit d) as [h|]; [|discriminate H].
    destruct (hex_digit e) as [l|]; [|discriminate H].
    destruct (unhexlify t) as [bs|err] eqn:Et; [|discriminate H].
    change (unhexlify (String c (String d (String e t))))
      with (match hex_digit c, hex_digit d with
            | Some h', Some l' =>
                bs' <- unhexlify (String e t) ;; Ok (byte_of_Z (16 * h' + l') :: bs')
            | _, _ => Raise BinasciiError
            end).
    rewrite (IH0 (ex_intro _ bs eq_refl) e).
    destruct (hex_digit c); destruct (hex_digit d); reflexivity.
Qed.

(** Appending well-formed text to any text, well-formed or not. *)
Lemma unhexlify_suffix_pair (t : string) (y : list byte) :
  unhexlify t = Ok y ->
  forall s,
    (unhexlify (s ++ t)%string = (x <- unhexlify s ;; Ok (x ++ y)))
    /\ forall c,
       unhexlify (String c s ++ t)%string
       = (x <- unhexlify (String c s) ;; Ok (x ++ y)).
Proof.
  intros Ht. induction s as [|d s [IH0 IH1]].
  - split.
    + cbn [String.append unhexlify bind app]. exact Ht.
    + intros c. cbn [String.append].
      rewrite (proj1 (unhexlify_odd_shift t) (ex_intro _ y Ht) c). reflexivity.
  - split; [apply IH1|].
    intros c. cbn [String.append unhexlify].
    destruct (hex_digit c) as [h|]; [|reflexivity].
    destruct (hex_digit d) as [l|]; [|reflexivity].
    rewrite IH0. destruct (unhexlify s); reflexivity.
Qed.

(** X17: the message depends on [length] and [body] only through their
    concatenation: it is the header, the command code, the bytes that the
    joined text denotes, and the footer, and it fails (with the error of
    the hex codec) exactly when the joined text is not an even number of
    hexadecimal digits.  The length field is never compared with the
    body. *)
Theorem command_message_joined (cmd : CMD) (length body : string) :
  exists c0 c1,
    unhexlify (CMD_str cmd) = Ok [c0; c1]
    /\ command_message cmd length body
       = (x <- unhexlify (length ++ body)%string ;;
          Ok ([x5a; xa5; c0; c1] ++ x ++ [xaa; xee])).
Proof.
  destruct (CMD_str_two_bytes cmd) as (c0 & c1 & Hc).
  exists c0, c1. split; [exact Hc|].
  unfold command_message.
  rewrite (proj1 (unhexlify_app_pair CONFIG_HEADER) [x5a; xa5] _ eq_refl).
  rewrite (proj1 (unhexlify_app_pair (CMD_str cmd)) [c0; c1] _ Hc).
  assert (Hjoin : (length ++ body ++ CONFIG_FOOTER
                   = (length ++ body) ++ CONFIG_FOOTER)%string).
  { clear. induction length as [|a l IH]; [reflexivity|].
    cbn [String.append]. rewrite IH. reflexivity. }
  rewrite Hjoin.
  rewrite (proj1 (unhexlify_suffix_pair CONFIG_FOOTER [xaa; xee] eq_refl
                    (length ++ body)%string)).
  destruct (unhexlify (length ++ body)%string); reflexivity.
Qed.

Example command_message_odd_parts :
  command_message CONFIG_FPGA_GEN_CMD_CODE "060" "001010102031e"
  = command_message CONFIG_FPGA_GEN_CMD_CODE "0600" "01010102031e"
  /\ command_message CONFIG_FPGA_GEN_CMD_CODE "0600" "010" = Raise BinasciiError.
Proof. split; reflexivity. Qed.



(** ** Stream constants for any geometry *)

(** X20: for every set of stream parameters, the clipped frame is a whole
    number of packets, it drops fewer than BYTES_IN_PACKET bytes of the
    frame, and the slots of its packets, 728 words each, fit in the words
    of one frame. *)
Theorem clipped_frame_fits (p : adc_params) :
  packets_in_frame_clipped p * BYTES_IN_PACKET = bytes_in_frame_clipped p
  /\ 0 <= bytes_in_frame p - bytes_in_frame_clipped p < BYTES_IN_PACKET
  /\ packets_in_frame_clipped p * UINT16_IN_PACKET <= bytes_in_frame p / 2.
Proof.
  unfold packets_in_frame_clipped, bytes_in_frame_clipped.
  rewrite UINT16_IN_PACKET_eq. unfold BYTES_IN_PACKET.
  set (x := bytes_in_frame p).
  pose proof (Z.div_mod x 1456 ltac:(lia)) as Hdm.
  pose proof (Z.mod_pos_bound x 1456 ltac:(lia)) as Hm.
  split; [reflexivity|]. split; [lia|].
  apply Z.div_le_lower_bound; lia.
Qed.

(** ** The reorganisers *)

Lemma split_into_length {A} (count size : nat) :
  forall l : list A, length (split_into count size l) = count.
Proof.
  induction count as [|c IH]; intros l; [reflexivity|].
  cbn [split_into length]. rewrite IH. reflexivity.
Qed.

Lemma split_into_nth {A} (count size : nat) :
  forall (l : list A) i, (i < count)%nat ->
  nth_error (split_into count size l) i
  = Some (firstn size (skipn (i * size) l)).
Proof.
  induction count as [|c IH]; intros l i Hi; [lia|].
  cbn [split_into]. destruct i as [|i].
  - reflexivity.
  - cbn [nth_error]. rewrite IH by lia. rewrite skipn_skipn.
    do 3 f_equal. lia.
Qed.

Lemma chunk_length {A} (l : list A) (count size i : nat) :
  length l = (count * size)%nat -> (i < count)%nat ->
  length (firstn size (skipn (i * size) l)) = size.
Proof.
  intros Hl Hi. rewrite length_firstn, length_skipn, Hl.
  assert (i * size + size <= count * size)%nat.
  { replace (i * size + size)%nat with ((S i) * size)%nat by lia.
    apply Nat.mul_le_mono_r. lia. }
  lia.
Qed.

Lemma chunk_nth {A} (l : list A) (size o j : nat) :
  (j < size)%nat ->
  nth_error (firstn size (skipn o l)) j = nth_error l (o + j).
Proof.
  intros Hj. rewrite nth_error_firstn.
  destruct (Nat.ltb_spec j size); [|lia]. apply nth_error_skipn.
Qed.

Lemma tab_split {A B} (g : list A -> B) (l : list A) (count size : nat) :
  tab count (map g (split_into count size l))
      (fun i => g (firstn size (skipn (i * size) l))).
Proof.
  split.
  - rewrite length_map. apply split_into_length.
  - intros i Hi. rewrite nth_error_map, split_into_nth by exact Hi. reflexivity.
Qed.

Lemma tab_map {A B} (g : A -> B) (n : nat) (l : list A) (v : nat -> A) :
  tab n l v -> tab n (map g l) (fun i => g (v i)).
Proof.
  intros [Hl Hv]. split.
  - rewrite length_map. exact Hl.
  - intros i Hi. rewrite nth_error_map, (Hv i Hi). reflexivity.
Qed.

Lemma tab_ext {A} (n : nat) (l : list A) (v w : nat -> A) :
  tab n l v -> (forall i, (i < n)%nat -> v i = w i) -> tab n l w.
Proof.
  intros [Hl Hv] E. split; [exact Hl|].
  intros i Hi. rewrite (Hv i Hi), (E i Hi). reflexivity.
Qed.

Lemma nth_error_combine {A B} (a : list A) :
  forall (b : list B) i x y,
  nth_error a i = Some x -> nth_error b i = Some y ->
  nth_error (combine a b) i = Some (x, y).
Proof.
  induction a as [|a0 a IH]; intros b i x y Ha Hb.
  - destruct i; discriminate Ha.
  - destruct b as [|b0 b]; [destruct i; discriminate Hb|].
    destruct i as [|i].
    + cbn in *. congruence.
    + cbn [combine nth_error] in *. apply IH; assumption.
Qed.

Lemma tab_zip {A B C} (f : A -> B -> C) (n : nat) (a : list A) (b : list B)
    (u : nat -> A) (v : nat -> B) :
  tab n a u -> tab n b v -> tab n (zip_with f a b) (fun i => f (u i) (v i)).
Proof.
  intros [Hla Hu] [Hlb Hv]. unfold zip_with. split.
  - rewrite length_map, length_combine, Hla, Hlb. apply Nat.min_id.
  - intros i Hi. rewrite nth_error_map.
    rewrite (nth_error_combine a b i _ _ (Hu i Hi) (Hv i Hi)). reflexivity.
Qed.

Lemma tab_nth {A} (n : nat) (l : list A) (v : nat -> A) (d : A) (k : nat) :
  tab n l v -> (k < n)%nat -> nth k l d = v k.
Proof.
  intros [_ Hv] Hk. apply nth_error_nth. apply Hv. exact Hk.
Qed.

Lemma tab_unique {A} (n : nat) (l l' : list A) (v : nat -> A) :
  tab n l v -> tab n l' v -> l = l'.
Proof.
  intros [Hl Hv] [Hl' Hv']. apply nth_error_ext. intros i.
  destruct (Nat.lt_ge_cases i n) as [Hi|Hi].
  - rewrite (Hv i Hi), (Hv' i Hi). reflexivity.
  - rewrite (proj2 (nth_error_None l i)) by lia.
    rewrite (proj2 (nth_error_None l' i)) by lia. reflexivity.
Qed.

(** A column of a matrix whose rows all reach it. *)
Lemma column_tab {A} (j : nat) :
  forall (m : list (list A)) (rows : nat -> list A) (n : nat) (e : nat -> A),
  tab n m rows ->
  (forall s, (s < n)%nat -> nth_error (rows s) j = Some (e s)) ->
  tab n (flat_map (fun row => firstn 1 (skipn j row)) m) e.
Proof.
  induction m as [|row m IH]; intros rows n e [Hl Hv] Hrow.
  - cbn in Hl. subst n. split; [reflexivity|]. intros i Hi. lia.
  - cbn [length] in Hl. destruct n as [|n]; [discriminate Hl|].
    assert (H0 : row = rows 0%nat).
    { specialize (Hv 0%nat ltac:(lia)). cbn in Hv. congruence. }
    assert (Hpick : firstn 1 (skipn j row) = [e 0%nat]).
    { specialize (Hrow 0%nat ltac:(lia)). rewrite <- H0 in Hrow.
      rewrite <- (hd_error_skipn j row) in Hrow.
      destruct (skipn j row) as [|x t]; [discriminate Hrow|].
      cbn in Hrow. injection Hrow as ->. reflexivity. }
    destruct (IH (fun s => rows (S s)) n (fun s => e (S s))) as [Hl' Hv'].
    + split; [lia|]. intros i Hi. apply (Hv (S i)). lia.
    + intros s Hs. apply (Hrow (S s)). lia.
    + cbn [flat_map]. rewrite Hpick. split.
      * cbn [app length]. rewrite Hl'. reflexivity.
      * intros i Hi. destruct i as [|i]; [reflexivity|].
        cbn [app nth_error]. apply Hv'. lia.
Qed.

(** The transposition of the last two axes, on a matrix of [n] rows of
    [d] items. *)
Lemma transpose_tab {A} (d n : nat) (m : list (list A)) (e : nat -> nat -> A)
    (rows : nat -> list A) :
  tab n m rows ->
  (forall s, (s < n)%nat -> tab d (rows s) (e s)) ->
  tab d (map (fun j => flat_map (fun row => firstn 1 (skipn j row)) m) (seq 0 d))
      (fun j => flat_map (fun row => firstn 1 (skipn j row)) m)
  /\ forall j, (j < d)%nat ->
       tab n (flat_map (fun row => firstn 1 (skipn j row)) m) (fun s => e s j).
Proof.
  intros Hm Hrows. split.
  - split.
    + rewrite length_map, length_seq. reflexivity.
    + intros j Hj. rewrite nth_error_map, nth_error_seq.
      destruct (Nat.ltb_spec j d); [|lia]. reflexivity.
  - intros j Hj. apply (column_tab j m rows n (fun s => e s j) Hm).
    intros s Hs. apply (proj2 (Hrows s Hs)). exact Hj.
Qed.

Lemma tab_split_plain {A} (l : list A) (count size : nat) :
  tab count (split_into count size l)
      (fun i => firstn size (skipn (i * size) l)).
Proof.
  split; [apply split_into_length|].
  intros i Hi. apply split_into_nth. exact Hi.
Qed.

Lemma stride_lt (n size i j : nat) :
  (i < n)%nat -> (j < size)%nat -> (i * size + j < n * size)%nat.
Proof.
  intros Hi Hj.
  assert (S i * size <= n * size)%nat by (apply Nat.mul_le_mono_r; lia).
  lia.
Qed.

Lemma iq_value (x y : Z) :
  Cadd (C_of_int x) (Cmul imag_unit (C_of_int y)) = {| re := x; im := y |}.
Proof.
  unfold Cadd, Cmul, C_of_int, imag_unit. cbn [re im]. f_equal; lia.
Qed.

(** One chirp: [S] samples of [K] components of [R] receivers, to [R]
    rows of [S] complex samples. *)
Lemma chirp_block (a1 : list Z) (S K R : nat) :
  length a1 = (S * K * R)%nat -> (2 <= K)%nat ->
  let M :=
    zip_with (zip_with (fun x y => Cadd (C_of_int x) (Cmul imag_unit (C_of_int y))))
      (map (fun x => nth 0 x [])
           (map (fun a2 => split_into K R a2) (split_into S (K * R) a1)))
      (map (fun x => nth 1 x [])
           (map (fun a2 => split_into K R a2) (split_into S (K * R) a1))) in
  tab R (map (fun j => flat_map (fun row => firstn 1 (skipn j row)) M) (seq 0 R))
      (fun j => flat_map (fun row => firstn 1 (skipn j row)) M)
  /\ forall r, (r < R)%nat ->
       tab S (flat_map (fun row => firstn 1 (skipn r row)) M)
           (fun s => {| re := nth (s * (K * R) + r) a1 0;
                        im := nth (s * (K * R) + R + r) a1 0 |}).
Proof.
  intros Hl HK M.
  assert (Hl' : length a1 = (S * (K * R))%nat)
    by (rewrite Hl; symmetry; apply Nat.mul_assoc).
  set (ch := fun s => firstn (K * R) (skipn (s * (K * R)) a1)).
  assert (Hrow : forall k s, (k < K)%nat -> (s < S)%nat ->
            tab R (nth k (split_into K R (ch s)) [])
                (fun r => nth (s * (K * R) + (k * R + r)) a1 0)).
  { intros k s Hk Hs.
    rewrite (tab_nth K _ _ [] k (tab_split_plain (ch s) K R) Hk).
    assert (Hch : length (ch s) = (K * R)%nat)
      by (apply (chunk_length a1 S (K * R) s Hl' Hs)).
    split; [apply (chunk_length (ch s) K R k Hch Hk)|].
    intros r Hr. rewrite chunk_nth by exact Hr.
    unfold ch. rewrite chunk_nth by (apply stride_lt; assumption).
    apply nth_error_nth'. rewrite Hl'.
    apply stride_lt; [exact Hs|]. apply stride_lt; assumption. }
  assert (HM : tab S M (fun s =>
            zip_with (fun x y => Cadd (C_of_int x) (Cmul imag_unit (C_of_int y)))
                     (nth 0 (split_into K R (ch s)) [])
                     (nth 1 (split_into K R (ch s)) []))).
  { unfold M. apply tab_zip.
    - apply (tab_map (fun x => nth 0 x [])).
      apply (tab_split (fun a2 => split_into K R a2) a1 S (K * R)).
    - apply (tab_map (fun x => nth 1 x [])).
      apply (tab_split (fun a2 => split_into K R a2) a1 S (K * R)). }
  apply (transpose_tab R S M
           (fun s r => {| re := nth (s * (K * R) + r) a1 0;
                          im := nth (s * (K * R) + R + r) a1 0 |}) _ HM).
  intros s Hs.
  eapply tab_ext.
  - apply tab_zip; [apply (Hrow 0%nat s); lia|apply (Hrow 1%nat s); lia].
  - intros r Hr. cbv beta. rewrite iq_value. f_equal; f_equal; lia.
Qed.

Lemma reshape5_ok {A} (a : list A) (d0 d1 d2 d3 d4 : nat) :
  length a = (d0 * d1 * d2 * d3 * d4)%nat ->
  reshape5 a d0 d1 d2 d3 d4
  = Ok (map (fun a0 =>
          map (fun a1 =>
            map (fun a2 => split_into d3 d4 a2)
                (split_into d2 (d3 * d4) a1))
              (split_into d1 (d2 * d3 * d4) a0))
            (split_into d0 (d1 * d2 * d3 * d4) a)).
Proof.
  intros H. unfold reshape5. rewrite H, Nat.eqb_refl. reflexivity.
Qed.

(** The three outcomes of [organize_frames]. *)
Lemma organize_frames_cases (raw_data : list Z)
    (num_frames chirps_per_frame num_rx samples_per_chirp complexity : nat) :
  let size := (num_frames * chirps_per_frame * samples_per_chirp
               * complexity * num_rx)%nat in
  let run := organize_frames raw_data num_frames chirps_per_frame num_rx
                             samples_per_chirp complexity in
  (run = Raise ValueError <-> length raw_data <> size)
  /\ (run = Raise IndexError
      <-> length raw_data = size /\ (complexity < 2)%nat)
  /\ ((exists t, run = Ok t)
      <-> length raw_data = size /\ (2 <= complexity)%nat).
Proof.
  intros size run. subst run. unfold organize_frames, reshape5.
  rewrite length_map. fold size.
  destruct (Nat.eqb_spec (length raw_data) size) as [E|E].
  - cbn [bind]. unfold take_axis3.
    destruct complexity as [|[|K]]; cbn [Nat.ltb Nat.leb bind];
      (split; [|split]); split;
      solve [ intros H; discriminate H
            | intros [t H]; discriminate H
            | intros [_ H]; lia
            | intros _; reflexivity
            | intros _; eexists; reflexivity
            | intros _; split; [exact E|lia]
            | intros H; contradiction ].
  - cbn [bind].
    (split; [|split]); split;
      solve [ intros H; discriminate H
            | intros [t H]; discriminate H
            | intros [H _]; contradiction
            | intros _; reflexivity
            | intros _; exact E ].
Qed.

(** X21: [organize_frames] raises [ValueError] exactly when the number of
    words is not frames * chirps * samples * complexity * rx, raises
    [IndexError] exactly when the size is right and there are fewer than
    two components, and returns an array in all other cases; components
    beyond the second are accepted. *)
Theorem organize_frames_outcome (raw_data : list Z)
    (num_frames chirps_per_frame num_rx samples_per_chirp complexity : nat) :
  let size := (num_frames * chirps_per_frame * samples_per_chirp
               * complexity * num_rx)%nat in
  let run := organize_frames raw_data num_frames chirps_per_frame num_rx
                             samples_per_chirp complexity in
  (run = Raise ValueError <-> length raw_data <> size)
  /\ (run = Raise IndexError
      <-> length raw_data = size /\ (complexity < 2)%nat)
  /\ ((exists t, run = Ok t)
      <-> length raw_data = size /\ (2 <= complexity)%nat).
Proof. exact (organize_frames_cases raw_data num_frames chirps_per_frame num_rx samples_per_chirp complexity). Qed.

Lemma chunk_value (raw : list Z) (size o j : nat) :
  (j < size)%nat -> (o + j < length raw)%nat ->
  nth j (firstn size (skipn o (map astype_int16 raw))) 0
  = astype_int16 (nth (o + j) raw 0).
Proof.
  intros Hj Ho. apply nth_error_nth.
  rewrite chunk_nth by exact Hj. rewrite nth_error_map.
  rewrite (nth_error_nth' raw 0 Ho). reflexivity.
Qed.

(** The array that [organize_frames] builds, axis by axis. *)
Lemma organize_frames_table (raw : list Z) (F C R S K : nat)
    (t : tensor4 complex) :
  organize_frames raw F C R S K = Ok t ->
  exists tf : nat -> list (list (list complex)),
    tab F t tf
    /\ forall f, (f < F)%nat ->
       exists tc : nat -> list (list complex),
         tab C (tf f) tc
         /\ forall c, (c < C)%nat ->
            exists tr : nat -> list complex,
              tab R (tc c) tr
              /\ forall r, (r < R)%nat ->
                 tab S (tr r)
                     (fun s =>
                        iq_sample raw
                          (f * (C * S * K * R) + c * (S * K * R) + s * (K * R) + r)
                          (f * (C * S * K * R) + c * (S * K * R) + s * (K * R) + R + r)).
Proof.
  intros H.
  assert (Hout := proj2 (proj2 (organize_frames_cases raw F C R S K))).
  cbv zeta in Hout. destruct (proj1 Hout (ex_intro _ t H)) as [Hlen HK].
  clear Hout.
  unfold organize_frames in H.
  rewrite reshape5_ok in H by (rewrite length_map; exact Hlen).
  cbn [bind] in H. unfold take_axis3 in H.
  destruct (Nat.ltb_spec 0 K); [|lia]. destruct (Nat.ltb_spec 1 K); [|lia].
  cbn [bind] in H. injection H as <-.
  set (raw' := map astype_int16 raw).
  assert (Hl0 : length raw' = (F * (C * S * K * R))%nat)
    by (unfold raw'; rewrite length_map, Hlen; lia).
  set (ch0 := fun f => firstn (C * S * K * R) (skipn (f * (C * S * K * R)) raw')).
  eexists. split.
  - unfold transpose_last2.
    apply tab_map. apply tab_zip.
    + apply tab_map. apply tab_split.
    + apply tab_map. apply tab_split.
  - intros f Hf. cbv beta. fold (ch0 f).
    assert (Hl1 : length (ch0 f) = (C * (S * K * R))%nat).
    { replace (C * (S * K * R))%nat with (C * S * K * R)%nat by lia.
      apply (chunk_length raw' F (C * S * K * R) f Hl0 Hf). }
    set (ch1 := fun c => firstn (S * K * R) (skipn (c * (S * K * R)) (ch0 f))).
    eexists. split.
    + apply tab_map. apply tab_zip.
      * apply tab_map. apply tab_split.
      * apply tab_map. apply tab_split.
    + intros c Hc. cbv beta. fold (ch1 c).
      assert (Hl2 : length (ch1 c) = (S * K * R)%nat)
        by (apply (chunk_length (ch0 f) C (S * K * R) c Hl1 Hc)).
      destruct (chirp_block (ch1 c) S K R Hl2 HK) as [Hrows Hcols].
      eexists. split; [exact Hrows|].
      intros r Hr. cbv beta. eapply tab_ext; [apply (Hcols r Hr)|].
      intros s Hs. cbv beta. unfold iq_sample.
      assert (Hb1 : (s * (K * R) + r < S * K * R)%nat).
      { replace (S * K * R)%nat with (S * (K * R))%nat by lia.
        apply stride_lt; [exact Hs|].
        pose proof (stride_lt K R 0 r ltac:(lia) Hr). lia. }
      assert (Hb2 : (s * (K * R) + R + r < S * K * R)%nat).
      { replace (S * K * R)%nat with (S * (K * R))%nat by lia.
        replace (s * (K * R) + R + r)%nat with (s * (K * R) + (1 * R + r))%nat by lia.
        apply stride_lt; [exact Hs|]. apply stride_lt; [lia|exact Hr]. }
      assert (Hc1 : forall j, (j < S * K * R)%nat ->
                nth j (ch1 c) 0
                = astype_int16 (nth (f * (C * S * K * R) + c * (S * K * R) + j) raw 0)).
      { intros j Hj.
        assert (Hcj : (c * (S * K * R) + j < C * S * K * R)%nat).
        { replace (C * S * K * R)%nat with (C * (S * K * R))%nat by lia.
          apply stride_lt; assumption. }
        assert (Hfj : (f * (C * S * K * R) + (c * (S * K * R) + j) < length raw)%nat).
        { rewrite Hlen.
          replace (F * C * S * K * R)%nat with (F * (C * S * K * R))%nat by lia.
          apply stride_lt; assumption. }
        unfold ch1. apply nth_error_nth. rewrite chunk_nth by exact Hj.
        unfold ch0. rewrite chunk_nth by exact Hcj.
        unfold raw'. rewrite nth_error_map.
        rewrite (nth_error_nth' raw 0 Hfj). cbn [option_map].
        do 3 f_equal. lia. }
      rewrite (Hc1 _ Hb1), (Hc1 _ Hb2). f_equal; do 2 f_equal; lia.
Qed.

(** X22: every item of the array that [organize_frames] returns.  The
    array has the shape (frames, chirps, rx, samples); the sample of
    frame f, chirp c, receiver r and sample s takes its real part from
    the input word number f*C*S*K*R + c*S*K*R + s*K*R + r and its
    imaginary part from the word R places further (C chirps, S samples,
    K components, R receivers), both read as signed 16-bit; outside that
    shape there is no item. *)
Theorem organize_frames_elements (raw : list Z) (F C R S K : nat)
    (t : tensor4 complex) :
  organize_frames raw F C R S K = Ok t ->
  forall f c r s,
    tensor_get t f c r s
    = if ((f <? F) && (c <? C) && (r <? R) && (s <? S))%nat
      then Some (iq_sample raw
                   (f * (C * S * K * R) + c * (S * K * R) + s * (K * R) + r)
                   (f * (C * S * K * R) + c * (S * K * R) + s * (K * R) + R + r))
      else None.
Proof.
  intros H f c r s.
  destruct (organize_frames_table raw F C R S K t H) as (tf & [HlF HF] & Hf).
  unfold tensor_get.
  destruct (Nat.ltb_spec f F) as [Lf|Lf]; cbn [andb];
    [|rewrite (proj2 (nth_error_None t f)) by lia; reflexivity].
  rewrite (HF f Lf).
  destruct (Hf f Lf) as (tc & [HlC HC] & Hc).
  destruct (Nat.ltb_spec c C) as [Lc|Lc]; cbn [andb];
    [|rewrite (proj2 (nth_error_None (tf f) c)) by lia; reflexivity].
  rewrite (HC c Lc).
  destruct (Hc c Lc) as (tr & [HlR HR] & Hr).
  destruct (Nat.ltb_spec r R) as [Lr|Lr]; cbn [andb];
    [|rewrite (proj2 (nth_error_None (tc c) r)) by lia; reflexivity].
  rewrite (HR r Lr).
  destruct (Hr r Lr) as [HlS HS].
  destruct (Nat.ltb_spec s S) as [Ls|Ls];
    [|rewrite (proj2 (nth_error_None (tr r) s)) by lia; reflexivity].
  apply (HS s Ls).
Qed.

Lemma organize_frames_elements_witness :
  tensor_get [[[[{| re := 1; im := 3 |}]; [{| re := 2; im := 4 |}]];
               [[{| re := 5; im := 7 |}]; [{| re := 6; im := 8 |}]]]] 0 1 1 0
  = if ((0 <? 1) && (1 <? 2) && (1 <? 2) && (0 <? 1))%nat
    then Some (iq_sample example_raw
                 (0 * (2 * 1 * 2 * 2) + 1 * (1 * 2 * 2) + 0 * (2 * 2) + 1)
                 (0 * (2 * 1 * 2 * 2) + 1 * (1 * 2 * 2) + 0 * (2 * 2) + 2 + 1))
    else None.
Proof.
  apply (organize_frames_elements example_raw 1 2 2 1 2).
  vm_compute. reflexivity.
Defined.

(** X23: [organize] is [organize_frames] for a single frame with two
    components: on the same words, [organize_frames] with one frame
    returns the array of [organize] as its only frame, and fails with the
    same error when [organize] fails. *)
Theorem organize_is_one_frame (raw : list Z) (num_chirps num_rx num_samples : nat) :
  organize_frames raw 1 num_chirps num_rx num_samples 2
  = (t <- organize raw num_chirps num_rx num_samples ;; Ok [t]).
Proof.
  unfold organize_frames, organize, reshape5, reshape4.
  rewrite length_map, Nat.mul_1_l.
  destruct (Nat.eqb_spec (length raw) (num_chirps * num_samples * 2 * num_rx)) as [E|E];
    [|reflexivity].
  cbn [bind split_into map].
  rewrite firstn_all2 by (rewrite length_map; lia).
  unfold take_axis3, take_axis2. cbn [Nat.ltb Nat.leb bind map].
  unfold transpose_last2, transpose_last2_of3.
  unfold zip_with at 1. cbn [combine map fst snd]. reflexivity.
Qed.

(** X24: a stream that runs dry before the second frame start makes
    [read] raise [socket.timeout], whether it holds no frame start at all
    or one frame start (of 728 words) followed only by packets of its
    frame; the packets received so far are lost with the call. *)
Theorem read_timeout (pre mid : socket) (d1 : datagram) :
  forallb inside_frame pre = true ->
  frame_start d1 = true ->
  len (payload d1) = 728 ->
  forallb inside_frame mid = true ->
  read pre = Raise SocketTimeout
  /\ read (pre ++ d1 :: mid) = Raise SocketTimeout.
Proof.
  intros Hpre Hd1 Hlen Hmid. split.
  - rewrite <- (app_nil_r pre), (read_drop_prefix pre [] Hpre), read_unfold.
    reflexivity.
  - rewrite (read_drop_prefix pre _ Hpre), read_unfold.
    apply frame_start_spec in Hd1 as (p1 & Hp1 & Hb1).
    assert (Hpay : payload d1 = packet_data p1)
      by (unfold payload; rewrite Hp1; reflexivity).
    rewrite Hpay in Hlen.
    rewrite (wait_step_start zero_frame d1 p1 _ Hp1 Hb1).
    rewrite (first_packet_write _ Hlen). cbn [bind].
    rewrite <- (app_nil_r mid), (rest_loop_inside [] mid Hmid).
    reflexivity.
Qed.

Lemma read_timeout_witness :
  read [encode_packet (synth_packet 1)] = Raise SocketTimeout
  /\ read ([encode_packet (synth_packet 1)] ++ encode_packet (synth_packet 360)
             :: [encode_packet (synth_packet 361)])
     = Raise SocketTimeout.
Proof.
  apply (read_timeout [encode_packet (synth_packet 1)]
           [encode_packet (synth_packet 361)] (encode_packet (synth_packet 360))).
  - vm_compute. reflexivity.
  - vm_compute. reflexivity.
  - vm_compute. reflexivity.
  - vm_compute. reflexivity.
Defined.
